(** * Build-event reporting of the webpack runner

    A shallow embedding of [packages/taro-webpack-runner/src/index.ts]:
    the lazily created spinner, [printBuildError] with its minifier stack
    pattern, the [done]/[invalid] hooks of [createCompiler], the run
    callback of [buildProd] and the first-listen latch of [buildDev].

    JavaScript strings are sequences of UTF-16 code units, so a string is
    a [list N].  Terminal output is a list of events; program state is the
    module-level [isFirst], the closure variable [spinner] and the heap of
    [ora] objects. *)

From Stdlib Require Import String Ascii.
From Stdlib Require Import NArith ZArith Lia List Bool.
From stdpp Require Import base option list.

Local Open Scope list_scope.

(* ------------------------------------------------------------------ *)
(** ** Strings *)

Abbreviation jsstring := (list N).

(** An ASCII literal as code units. *)
Definition js (s : string) : jsstring :=
  map N_of_ascii (list_ascii_of_string s).

Definition LF : N := 10%N.
Definition TAB : N := 9%N.
Definition LBRACKET : N := 91%N.
Definition RBRACKET : N := 93%N.
Definition COLON : N := 58%N.
Definition COMMA : N := 44%N.

(** [s.length] is falsy exactly for the empty sequence. *)
Definition has_length {A} (l : list A) : bool :=
  match l with [] => false | _ :: _ => true end.

Fixpoint isPrefix (p s : jsstring) : bool :=
  match p, s with
  | [], _ => true
  | _ :: _, [] => false
  | a :: p', b :: s' => N.eqb a b && isPrefix p' s'
  end.

Fixpoint indexOfFrom (needle hay : jsstring) (i : Z) : Z :=
  if isPrefix needle hay then i
  else match hay with
       | [] => (-1)%Z
       | _ :: hay' => indexOfFrom needle hay' (i + 1)%Z
       end.

(** [hay.indexOf(needle)] *)
Definition indexOf (hay needle : jsstring) : Z := indexOfFrom needle hay 0%Z.

(** [arr.join(sep)] on an array of strings. *)
Fixpoint join (sep : jsstring) (l : list jsstring) : jsstring :=
  match l with
  | [] => []
  | [x] => x
  | x :: rest => x ++ sep ++ join sep rest
  end.

(** [arr.splice(start)]: the removed elements (the call's value) and the
    array as it is left behind. *)
Definition splice {A} (start : nat) (arr : list A) : list A * list A :=
  (drop start arr, take start arr).

(* ------------------------------------------------------------------ *)
(** ** Values *)

Record ErrorObj := mkError {
  err_name : jsstring;
  err_message : option jsstring;   (* None: the property is undefined *)
  err_stack : option jsstring
}.

Inductive Val :=
| VUndefined
| VNull
| VBool (b : bool)
| VStr (s : jsstring)
| VErr (e : ErrorObj).

Definition truthy (v : Val) : bool :=
  match v with
  | VUndefined | VNull => false
  | VBool b => b
  | VStr s => has_length s
  | VErr _ => true
  end.

(** [Error.prototype.toString] *)
Definition errorToString (e : ErrorObj) : jsstring :=
  let name := err_name e in
  let msg := default [] (err_message e) in
  if negb (has_length name) then msg
  else if negb (has_length msg) then name
  else name ++ js ": " ++ msg.

Definition toString (v : Val) : jsstring :=
  match v with
  | VUndefined => js "undefined"
  | VNull => js "null"
  | VBool true => js "true"
  | VBool false => js "false"
  | VStr s => s
  | VErr e => errorToString e
  end.

(** [v != null] *)
Definition not_nullish (v : Val) : bool :=
  match v with VUndefined | VNull => false | _ => true end.

(** [a || b] *)
Definition js_or (a b : Val) : Val := if truthy a then a else b.

Definition of_prop (o : option jsstring) : Val :=
  match o with Some s => VStr s | None => VUndefined end.

(* ------------------------------------------------------------------ *)
(** ** Styled text (chalk) and terminal events *)

Inductive Style := green | red | yellow | cyan | gray | underline.

Record Span := mkSpan { styles : list Style; chars : jsstring }.

Abbreviation Text := (list Span).

Definition plain (s : jsstring) : Text := [mkSpan [] s].

(** [chalk.<st>(t)] *)
Definition chalk (st : Style) (t : Text) : Text :=
  map (fun sp => mkSpan (st :: styles sp) (chars sp)) t.

Inductive Arg :=
| AText (t : Text)
| AVal (v : Val).

Inductive Event :=
| OraStart (r : nat)
| OraRender (r : nat)
| OraClear (r : nat)
| OraStopAndPersist (r : nat) (symbol : jsstring) (text : Text)
| ConsoleLog (args : list Arg)
| StdoutWrite (s : jsstring)
| Opn (url : Val).

(* ------------------------------------------------------------------ *)
(** ** Program state and the effect monad *)

Record OraObj := mkOra { ora_text : jsstring }.

Record World := mkWorld {
  spinner : option nat;      (* the closure variable of getServeSpinner *)
  oras : list OraObj;        (* every ora instance ever constructed *)
  isFirst : bool             (* module-level latch *)
}.

Definition initial : World := mkWorld None [] true.

Inductive Outcome (A : Type) :=
| Ret (a : A)
| Throw (e : Val).
Arguments Ret {A} a.
Arguments Throw {A} e.

Definition M (A : Type) : Type := World -> Outcome A * World * list Event.

Definition ret {A} (a : A) : M A := fun w => (Ret a, w, []).

Definition bind {A B} (m : M A) (f : A -> M B) : M B :=
  fun w =>
    match m w with
    | (Ret a, w1, out1) =>
        match f a w1 with
        | (r, w2, out2) => (r, w2, out1 ++ out2)
        end
    | (Throw e, w1, out1) => (Throw e, w1, out1)
    end.

Definition throw {A} (e : Val) : M A := fun w => (Throw e, w, []).

(** [try { m } catch (x) { h x }] *)
Definition try_catch {A} (m : M A) (h : Val -> M A) : M A :=
  fun w =>
    match m w with
    | (Ret a, w1, out1) => (Ret a, w1, out1)
    | (Throw e, w1, out1) =>
        match h e w1 with
        | (r, w2, out2) => (r, w2, out1 ++ out2)
        end
    end.

Definition emit (e : Event) : M unit := fun w => (Ret tt, w, [e]).
Definition get_world : M World := fun w => (Ret w, w, []).
Definition put_world (w' : World) : M unit := fun _ => (Ret tt, w', []).

Declare Scope js_scope.
Delimit Scope js_scope with js_m.
Notation "'let*' x := m 'in' k" := (bind m (fun x => k))
  (at level 10, x name, m at level 100, k at level 200) : js_scope.
Notation "m >> k" := (bind m (fun _ => k))
  (at level 62, right associativity) : js_scope.
Local Open Scope js_scope.

Definition console_log (args : list Arg) : M unit := emit (ConsoleLog args).

Definition events_of {A} (r : Outcome A * World * list Event) : list Event := snd r.
Definition world_of {A} (r : Outcome A * World * list Event) : World := snd (fst r).
Definition outcome_of {A} (r : Outcome A * World * list Event) : Outcome A := fst (fst r).

Definition returns {A} (r : Outcome A * World * list Event) : bool :=
  match outcome_of r with Ret _ => true | Throw _ => false end.

(** Property reads; reading a property of [null] or [undefined] throws. *)
Definition typeError (msg : string) : Val :=
  VErr (mkError (js "TypeError") (Some (js msg)) None).

Definition get_message (v : Val) : M Val :=
  match v with
  | VUndefined | VNull => throw (typeError "Cannot read property 'message'")
  | VErr e => ret (of_prop (err_message e))
  | _ => ret VUndefined
  end.

Definition get_stack (v : Val) : M Val :=
  match v with
  | VUndefined | VNull => throw (typeError "Cannot read property 'stack'")
  | VErr e => ret (of_prop (err_stack e))
  | _ => ret VUndefined
  end.

(* ------------------------------------------------------------------ *)
(** ** The spinner *)

(** [ora(text)]: a new instance, named by its index in the heap. *)
Definition ora (text : jsstring) : M nat :=
  fun w => (Ret (length (oras w)),
            mkWorld (spinner w) (oras w ++ [mkOra text]) (isFirst w), []).

Definition set_spinner (r : nat) : M unit :=
  fun w => (Ret tt, mkWorld (Some r) (oras w) (isFirst w), []).

Definition getServeSpinner : M nat :=
  let* w := get_world in
  match spinner w with
  | None =>
      let* r := ora (js "Starting development server, please wait~") in
      set_spinner r >>
      ret r
  | Some r => ret r
  end.

(** [s.text = t] *)
Definition set_text (r : nat) (t : jsstring) : M unit :=
  fun w => (Ret tt, mkWorld (spinner w) (<[r := mkOra t]> (oras w)) (isFirst w), []).

Definition stopAndPersist (r : nat) (symbol : jsstring) (text : Text) : M unit :=
  emit (OraStopAndPersist r symbol text).

(* ------------------------------------------------------------------ *)
(** ** Regular expressions

    A backtracking matcher in continuation-passing style, for the
    fragment the source uses: single-character atoms, greedy [+] on an
    atom, capture groups and concatenation. *)

(** The characters [.] refuses: LF, CR, U+2028 and U+2029. *)
Definition isLineTerminator (c : N) : bool :=
  (c =? 10)%N || (c =? 13)%N || (c =? 8232)%N || (c =? 8233)%N.

Inductive Atom :=
| Dot
| Lit (c : N).

Definition atom_ok (a : Atom) (c : N) : bool :=
  match a with
  | Dot => negb (isLineTerminator c)
  | Lit d => (c =? d)%N
  end.

Inductive Re :=
| One (a : Atom)
| Rep1 (a : Atom)             (* a+ , greedy *)
| Grp (i : nat) (r : Re)      (* the i-th capture group *)
| Cat (r1 r2 : Re).

Abbreviation Caps := (list (option jsstring)).

(** The part of [s] consumed when [s'] is what remains of it. *)
Definition consumed (s s' : jsstring) : jsstring :=
  take (length s - length s') s.

(** Greedy [a+]: the longest run first, shorter ones on backtracking. *)
Fixpoint rep1 {R} (a : Atom) (s : jsstring) (k : jsstring -> option R) : option R :=
  match s with
  | [] => None
  | ch :: s' =>
      if atom_ok a ch then
        match rep1 a s' k with
        | Some r => Some r
        | None => k s'
        end
      else None
  end.

Fixpoint matcher (r : Re) (s : jsstring) (c : Caps)
    (k : jsstring -> Caps -> option Caps) : option Caps :=
  match r with
  | One a =>
      match s with
      | ch :: s' => if atom_ok a ch then k s' c else None
      | [] => None
      end
  | Rep1 a => rep1 a s (fun s' => k s' c)
  | Grp i r' => matcher r' s c (fun s' c' => k s' (<[i := Some (consumed s s')]> c'))
  | Cat r1 r2 => matcher r1 s c (fun s' c' => matcher r2 s' c' k)
  end.

Fixpoint ngroups (r : Re) : nat :=
  match r with
  | One _ | Rep1 _ => 0
  | Grp i r' => Nat.max i (ngroups r')
  | Cat r1 r2 => Nat.max (ngroups r1) (ngroups r2)
  end.

(** One attempt at the start of [s]; index 0 holds the whole match. *)
Definition match_here (r : Re) (s : jsstring) : option Caps :=
  matcher r s (replicate (S (ngroups r)) None)
    (fun s' c => Some (<[0%nat := Some (consumed s s')]> c)).

(** [re.exec(s)] for a regex without flags: the leftmost start wins. *)
Fixpoint exec (r : Re) (s : jsstring) : option Caps :=
  match match_here r s with
  | Some c => Some c
  | None =>
      match s with
      | [] => None
      | _ :: s' => exec r s'
      end
  end.

(** [matched[i]] *)
Definition cap (matched : Caps) (i : nat) : Val :=
  match matched !! i with
  | Some (Some s) => VStr s
  | _ => VUndefined
  end.

Fixpoint cat_all (rs : list Re) (last : Re) : Re :=
  match rs with
  | [] => last
  | r :: rs' => Cat r (cat_all rs' last)
  end.

(** [/(.+)\[(.+):(.+),(.+)\]\[.+\]/] *)
Definition minifyRe : Re :=
  cat_all
    [ Grp 1 (Rep1 Dot); One (Lit LBRACKET);
      Grp 2 (Rep1 Dot); One (Lit COLON);
      Grp 3 (Rep1 Dot); One (Lit COMMA);
      Grp 4 (Rep1 Dot); One (Lit RBRACKET);
      One (Lit LBRACKET); Rep1 Dot ]
    (One (Lit RBRACKET)).

Definition marker : jsstring := js "from UglifyJs".

(** [typeof message === 'string' && message.indexOf('from UglifyJs') !== -1] *)
Definition has_marker (message : Val) : bool :=
  match message with
  | VStr m => negb (indexOf m marker =? -1)%Z
  | _ => false
  end.

(** [v !== s] for a string [s] *)
Definition strict_neq_str (v : Val) (s : jsstring) : bool :=
  match v with
  | VStr t => negb (bool_decide (t = s))
  | _ => true
  end.

(** The location text [path:line] or [path:line:column] of line 40. *)
Definition location (problemPath line column : Val) : jsstring :=
  [TAB] ++ toString problemPath ++ js ":" ++ toString line
    ++ (if strict_neq_str column (js "0") then js ":" ++ toString column else []).

(* ------------------------------------------------------------------ *)
(** ** What the build engine hands over *)

Record Messages := mkMessages {
  errors : list jsstring;
  warnings : list jsstring
}.

(** The argument of [stats.toJson]: [true] in the hook, [{}] in the run
    callback. *)
Inductive ToJsonArg := JsonTrue | JsonEmptyObject.

Record ToStringOptions := mkToStringOptions {
  colors : bool;
  modules : bool;
  children : bool;
  chunks : bool;
  chunkModules : bool
}.

Record Urls := mkUrls {
  lanUrlForTerminal : Val;
  localUrlForBrowser : Val
}.

(** Literals that are not ASCII, as code units. *)
Definition SYMBOL_OK : jsstring := [9989; 32]%N.
Definition SYMBOL_FAILED : jsstring := [55357; 56901; 32; 32]%N.
Definition SYMBOL_WARNING : jsstring := [9888; 65039; 32; 32]%N.
Definition SYMBOL_INFO : jsstring := [8505; 65039; 32; 32]%N.
Definition WATCHING : jsstring :=
  [10; 30417; 21548; 25991; 20214; 20462; 25913; 20013; 46; 46; 46; 10]%N.

(** A stats object, as far as this file looks at it; the JSON tree of
    [stats.toJson] is left open. *)
Record Stats (Json : Type) := mkStats {
  toJson : ToJsonArg -> Json;
  statsToString : ToStringOptions -> jsstring
}.
Arguments mkStats {Json} toJson statsToString.
Arguments toJson {Json} s arg.
Arguments statsToString {Json} s options.

(** Sample collaborators for closed examples: the JSON tree is already
    the pair of message lists and the formatter is the identity. *)
Definition sample_format (j : Messages) : Messages := j.
Definition sample_frames (line : nat) : jsstring := [LF] ++ js "    at index.ts".
Definition sample_stats (es ws : list jsstring) : Stats Messages :=
  mkStats (fun _ => mkMessages es ws) (fun _ => js "Hash: 0123abcd").
(** A minifier failure as it reaches [printBuildError]: the message
    line, the complaint with its two bracketed groups, one frame. *)
Definition sample_stack : jsstring :=
  js "Error: static/js/main.js from UglifyJs" ++ [LF]
    ++ js "Unexpected token: name (y) [./src/app.js:12,4][static/js/main.js:3,100]"
    ++ [LF] ++ js "    at handle [as run] (index.js:1:2)".
Definition sample_minifier_error : ErrorObj :=
  mkError (js "Error") (Some (js "static/js/main.js from UglifyJs")) (Some sample_stack).
Definition sample_urls : Urls :=
  mkUrls (VStr (js "http://192.168.0.2:10086/")) (VStr (js "http://localhost:10086/")).

(* ------------------------------------------------------------------ *)
(** ** Vocabulary of the statements *)

(** The instance a call of [getServeSpinner] yields in world [w], and the
    world the call leaves. *)
Definition spinner_ref (w : World) : nat :=
  match spinner w with
  | Some r => r
  | None => length (oras w)
  end.

Definition touched (w : World) : World :=
  match spinner w with
  | Some _ => w
  | None =>
      mkWorld (Some (length (oras w)))
              (oras w ++ [mkOra (js "Starting development server, please wait~")])
              (isFirst w)
  end.

(** The three outcomes of a compile pass, read off the colour of a
    persisted status line. *)
Inductive BuildOutcome := Success | Failure | WarningsOnly.

Definition rendering (e : Event) : option BuildOutcome :=
  match e with
  | OraStopAndPersist _ _ [mkSpan [green] _] => Some Success
  | OraStopAndPersist _ _ [mkSpan [red] _] => Some Failure
  | OraStopAndPersist _ _ [mkSpan [yellow] _] => Some WarningsOnly
  | _ => None
  end.

Definition outcomes_of (evs : list Event) : list BuildOutcome := omap rendering evs.

Definition is_persist (e : Event) : bool :=
  match e with OraStopAndPersist _ _ _ => true | _ => false end.

Definition is_console_log (e : Event) : bool :=
  match e with ConsoleLog _ => true | _ => false end.

Definition line_success (r : nat) : Event :=
  OraStopAndPersist r SYMBOL_OK (chalk green (plain (js "Compile successfully!" ++ [LF]))).
Definition line_failed (r : nat) : Event :=
  OraStopAndPersist r SYMBOL_FAILED (chalk red (plain (js "Compile failed!" ++ [LF]))).
Definition line_warnings (r : nat) : Event :=
  OraStopAndPersist r SYMBOL_WARNING
    (chalk yellow (plain (js "Compile completes with warnings." ++ [LF]))).

Definition guidance_keywords : Event :=
  ConsoleLog
    [AText [ mkSpan [] ([LF] ++ js "Search for the ");
             mkSpan [underline; yellow] (js "keywords");
             mkSpan [] (js " to learn more about each warning.") ]].
Definition guidance_ignore : Event :=
  ConsoleLog
    [AText [ mkSpan [] (js "To ignore, add ");
             mkSpan [cyan] (js "// eslint-disable-next-line");
             mkSpan [] (js " to the line before." ++ [LF]) ]].

(** One plain string handed to [console.log]. *)
Definition log_plain (s : jsstring) : Event := ConsoleLog [AText (plain s)].

(** The first-listen banner. *)
Definition listening (url : Val) : Event :=
  ConsoleLog [AText [mkSpan [cyan] (SYMBOL_INFO ++ js "Listening at " ++ toString url)]].
Definition watching : Event := ConsoleLog [AText [mkSpan [gray] WATCHING]].

Definition banner (urls : Urls) (r : nat) : list Event :=
  [ OraClear r; ConsoleLog [];
    listening (lanUrlForTerminal urls); listening (localUrlForBrowser urls);
    watching ].

(** Banner lines are recognised by their colour: no other output of this
    file is cyan or gray at top level. *)
Definition is_banner_line (e : Event) : bool :=
  match e with
  | ConsoleLog [AText [mkSpan [cyan] _]] => true
  | ConsoleLog [AText [mkSpan [gray] _]] => true
  | _ => false
  end.

Definition banner_lines (evs : list Event) : nat := length (List.filter is_banner_line evs).

(** Each banner ends in one gray line; counting those counts banners. *)
Definition is_watching_line (e : Event) : bool :=
  match e with
  | ConsoleLog [AText [mkSpan [gray] _]] => true
  | _ => false
  end.

Definition banners (evs : list Event) : nat := length (List.filter is_watching_line evs).

(** The world after [getServeSpinner().text = 'Compiling...']. *)
Definition relabelled (w : World) : World :=
  mkWorld (spinner (touched w))
          (<[spinner_ref w := mkOra (js "Compiling...")]> (oras (touched w)))
          (isFirst w).

(** At most one instance, and the closure variable points at it. *)
Definition one_spinner (w : World) : Prop :=
  match spinner w with
  | None => oras w = []
  | Some r => r = 0 /\ length (oras w) = 1
  end.

(** What the two printers of [printBuildError] put on the terminal. *)
Definition minify_report (where_ : jsstring) : list Event :=
  [ ConsoleLog
      [ AText (plain (js "Failed to minify the code from this file: " ++ [LF; LF]));
        AText [mkSpan [yellow] where_];
        AText (plain [LF]) ];
    ConsoleLog [] ].

Definition located (path line column : jsstring) : list Event :=
  minify_report
    ([TAB] ++ path ++ [COLON] ++ line
       ++ (if bool_decide (column = [48%N]) then [] else [COLON] ++ column)).

Definition unparsed (err : Val) : list Event :=
  [ ConsoleLog [AText (plain (js "Failed to minify the bundle.")); AVal err];
    ConsoleLog [] ].


(** Text [.+] can span: not empty and free of line terminators. *)
Definition text_run (u : jsstring) : bool :=
  has_length u && forallb (fun c => negb (isLineTerminator c)) u.

Definition lacks (c : N) (u : jsstring) : bool :=
  forallb (fun d => negb (d =? c)%N) u.

(** Free text, a bracketed [path:line,column] group, another bracketed
    group. *)
Definition bracketed (text path line column other : jsstring) : jsstring :=
  text ++ [LBRACKET] ++ path ++ [COLON] ++ line ++ [COMMA] ++ column
       ++ [RBRACKET; LBRACKET] ++ other ++ [RBRACKET].

Definition Decomposes (stack text path line column other : jsstring) : Prop :=
  exists before after,
    stack = before ++ bracketed text path line column other ++ after /\
    text_run text = true /\ text_run path = true /\ text_run line = true /\
    text_run column = true /\ text_run other = true.

Definition MatchesPattern (stack : jsstring) : Prop :=
  exists text path line column other, Decomposes stack text path line column other.

Definition starts_new_line (s : jsstring) : bool :=
  match s with
  | [] => true
  | c :: _ => isLineTerminator c
  end.

Definition ends_line (s : jsstring) : bool :=
  match last s with
  | None => true
  | Some c => isLineTerminator c
  end.

(** A stack that can be read in one way only: nothing bracketed on the
    lines before the pattern, no further opening bracket inside the groups
    or on the rest of the pattern's line, no colon in line and column, no
    comma in column. *)
Record Unambiguous (before text path line column other tail rest : jsstring) : Prop := {
  ua_before : lacks LBRACKET before = true /\ ends_line before = true;
  ua_text : text_run text = true;
  ua_path : text_run path = true /\ lacks LBRACKET path = true;
  ua_line : text_run line = true /\ lacks LBRACKET line = true /\ lacks COLON line = true;
  ua_column : text_run column = true /\ lacks LBRACKET column = true
              /\ lacks COLON column = true /\ lacks COMMA column = true;
  ua_other : text_run other = true /\ lacks LBRACKET other = true;
  ua_tail : lacks LBRACKET tail = true /\ starts_new_line rest = true
}.

Definition Contains (hay needle : jsstring) : Prop :=
  exists a b, hay = a ++ needle ++ b.

(** The language of a regular expression, captures ignored. *)
Fixpoint Lang (r : Re) (u : jsstring) : Prop :=
  match r with
  | One a => exists c, u = [c] /\ atom_ok a c = true
  | Rep1 a => u <> [] /\ forallb (atom_ok a) u = true
  | Grp _ r' => Lang r' u
  | Cat r1 r2 => exists u1 u2, u = u1 ++ u2 /\ Lang r1 u1 /\ Lang r2 u2
  end.

(** A continuation whose failure does not depend on the captures. *)
Definition blind (k : jsstring -> Caps -> option Caps) : Prop :=
  forall v c1 c2, k v c1 = None -> k v c2 = None.

(** The pattern after each of its capture groups. *)
Definition after4 : Re :=
  Cat (One (Lit RBRACKET)) (Cat (One (Lit LBRACKET)) (Cat (Rep1 Dot) (One (Lit RBRACKET)))).
Definition after3 : Re := Cat (One (Lit COMMA)) (Cat (Grp 4 (Rep1 Dot)) after4).
Definition after2 : Re := Cat (One (Lit COLON)) (Cat (Grp 3 (Rep1 Dot)) after3).
Definition after1 : Re := Cat (One (Lit LBRACKET)) (Cat (Grp 2 (Rep1 Dot)) after2).

Section Runner.

(** The JSON tree of [stats.toJson] and [formatWebpackMessage] of
    [./util/format_webpack_message] are not part of this file. *)
Context {Json : Type}.
Variable formatWebpackMessage : Json -> Messages.
Local Abbreviation Stats := (Stats Json).

(** The frames V8 records for a [new Error] evaluated at a source line. *)
Variable captureFrames : nat -> jsstring.

(** [new Error(message)] evaluated at source line [line]. *)
Definition newError (line : nat) (message : jsstring) : ErrorObj :=
  let e := mkError (js "Error") (Some message) None in
  mkError (js "Error") (Some message) (Some (errorToString e ++ captureFrames line)).

Definition printBuildError (err : Val) : M unit :=
  let* message := (if not_nullish err then get_message err else ret (VBool false)) in
  let* stack := (if not_nullish err then get_stack err else ret (VBool false)) in
  (if truthy stack && has_marker message then
     try_catch
       (match exec minifyRe (toString stack) with
        | None =>
            throw (VErr (newError 35 (js "Using errors for control flow is bad.")))
        | Some matched =>
            let problemPath := cap matched 2 in
            let line := cap matched 3 in
            let column := cap matched 4 in
            console_log
              [ AText (plain (js "Failed to minify the code from this file: " ++ [LF; LF]));
                AText (chalk yellow (plain (location problemPath line column)));
                AText (plain [LF]) ]
        end)
       (fun ignored =>
          console_log [AText (plain (js "Failed to minify the bundle.")); AVal err])
   else
     console_log [AText (plain (toString (js_or message err) ++ [LF]))]) >>
  console_log [].

(** The [invalid] hook of [createCompiler]. *)
Definition taroInvalid : M unit :=
  (let* s := getServeSpinner in set_text s (js "Compiling...")) >>
  (let* s := getServeSpinner in emit (OraRender s)).

(** The [done] hook of [createCompiler]. *)
Definition taroDone (stats : Stats) : M unit :=
  let msgs := formatWebpackMessage (toJson stats JsonTrue) in
  let errors := errors msgs in
  let warnings := warnings msgs in
  let isSuccess := negb (has_length errors) && negb (has_length warnings) in
  (if isSuccess then
     let* s := getServeSpinner in
     stopAndPersist s SYMBOL_OK (chalk green (plain (js "Compile successfully!" ++ [LF])))
   else ret tt) >>
  (if has_length errors then
     let errors := snd (splice 1 errors) in
     (let* s := getServeSpinner in
      stopAndPersist s SYMBOL_FAILED (chalk red (plain (js "Compile failed!" ++ [LF])))) >>
     console_log [AText (plain (join [LF; LF] errors ++ [LF]))]
   else ret tt) >>
  (if has_length warnings then
     let warnings := snd (splice 1 warnings) in
     (let* s := getServeSpinner in
      stopAndPersist s SYMBOL_WARNING
        (chalk yellow (plain (js "Compile completes with warnings." ++ [LF])))) >>
     console_log [AText (plain (join [LF; LF] warnings ++ [LF]))]
   else ret tt).

Definition summaryOptions : ToStringOptions :=
  mkToStringOptions true false false false false.

(** The callback [buildProd] passes to [compiler.run]. *)
Definition runCallback (err : Val) (stats : Stats) : M unit :=
  if truthy err then printBuildError err
  else
    let msgs := formatWebpackMessage (toJson stats JsonEmptyObject) in
    let errors := errors msgs in
    let warnings := warnings msgs in
    let isSuccess := negb (has_length errors) && negb (has_length warnings) in
    if isSuccess then
      (let* s := getServeSpinner in
       stopAndPersist s SYMBOL_OK (chalk green (plain (js "Compile successfully!" ++ [LF])))) >>
      emit (StdoutWrite (statsToString stats summaryOptions ++ [LF]))
    else if has_length errors then
      let errors := snd (splice 1 errors) in
      (let* s := getServeSpinner in
       stopAndPersist s SYMBOL_FAILED (chalk red (plain (js "Compile failed!" ++ [LF])))) >>
      printBuildError (VErr (newError 127 (join [LF; LF] errors)))
    else if has_length warnings then
      (let* s := getServeSpinner in
       stopAndPersist s SYMBOL_WARNING
         (chalk yellow (plain (js "Compile completes with warnings." ++ [LF])))) >>
      console_log [AText (plain (join [LF; LF] warnings))] >>
      console_log
        [AText (plain ([LF] ++ js "Search for the ")
                ++ chalk underline (chalk yellow (plain (js "keywords")))
                ++ plain (js " to learn more about each warning."))] >>
      console_log
        [AText (plain (js "To ignore, add ")
                ++ chalk cyan (plain (js "// eslint-disable-next-line"))
                ++ plain (js " to the line before." ++ [LF]))]
    else ret tt.

(** [buildProd] up to the point where the engine takes over. *)
Definition buildProd : M unit :=
  (let* s := getServeSpinner in set_text s (js "Compiling...")) >>
  (let* s := getServeSpinner in emit (OraStart s)).

(** The second [done] hook, tapped by [buildDev]. *)
Definition taroDoneFirst (urls : Urls) : M unit :=
  let* w := get_world in
  if isFirst w then
    put_world (mkWorld (spinner w) (oras w) false) >>
    (let* s := getServeSpinner in emit (OraClear s)) >>
    console_log [] >>
    console_log
      [AText (chalk cyan (plain (SYMBOL_INFO ++ js "Listening at "
                                   ++ toString (lanUrlForTerminal urls))))] >>
    console_log
      [AText (chalk cyan (plain (SYMBOL_INFO ++ js "Listening at "
                                   ++ toString (localUrlForBrowser urls))))] >>
    console_log [AText (chalk gray (plain WATCHING))]
  else ret tt.

(** [buildDev] up to [server.listen]. *)
Definition buildDev : M unit :=
  console_log [] >>
  (let* s := getServeSpinner in set_text s (js "Compiling...")) >>
  (let* s := getServeSpinner in emit (OraStart s)).

(** The callback of [server.listen]. *)
Definition listenCallback (urls : Urls) (err : Val) : M unit :=
  if truthy err then console_log [AVal err]
  else emit (Opn (localUrlForBrowser urls)).

(** The default export: watch mode or one-shot mode, by [config.isWatch]. *)
Definition runner (isWatch : bool) : M unit :=
  if isWatch then buildDev else buildProd.

(** A compile-complete event in watch mode runs the hooks in the order
    they were tapped: [taroDone], then [taroDoneFirst]. *)
Definition compileDone (urls : Urls) (stats : Stats) : M unit :=
  taroDone stats >> taroDoneFirst urls.

(** *** Events the engine and the callers can deliver, in any order *)

Inductive Op :=
| CallRunner (isWatch : bool)
| CallGetServeSpinner
| CallPrintBuildError (err : Val)
| HookInvalid
| HookDone (stats : Stats)
| HookDoneFirst (urls : Urls)
| CallBuildProd
| CallRunCallback (err : Val) (stats : Stats)
| CallBuildDev
| CallListenCallback (urls : Urls) (err : Val).

Definition run_op (op : Op) : M unit :=
  match op with
  | CallRunner isWatch => runner isWatch
  | CallGetServeSpinner => getServeSpinner >> ret tt
  | CallPrintBuildError err => printBuildError err
  | HookInvalid => taroInvalid
  | HookDone stats => taroDone stats
  | HookDoneFirst urls => taroDoneFirst urls
  | CallBuildProd => buildProd
  | CallRunCallback err stats => runCallback err stats
  | CallBuildDev => buildDev
  | CallListenCallback urls err => listenCallback urls err
  end.

(** The world and the output after a sequence of operations; an
    exception ends one operation, not the process. *)
Fixpoint run_ops (ops : list Op) (w : World) : World * list Event :=
  match ops with
  | [] => (w, [])
  | op :: ops' =>
      let r := run_op op w in
      let r' := run_ops ops' (world_of r) in
      (fst r', events_of r ++ snd r')
  end.

(** The output of each of a series of compile-complete events in watch
    mode, event by event. *)
Fixpoint watch_trace (urls : Urls) (passes : list Stats) (w : World) : list (list Event) :=
  match passes with
  | [] => []
  | stats :: passes' =>
      let r := compileDone urls stats w in
      events_of r :: watch_trace urls passes' (world_of r)
  end.

(** The two modes, and one compile pass in each: the [done] hook in
    watch mode, the run callback (without engine error) in one-shot
    mode. *)
Inductive Mode := Watch | OneShot.

Definition messages_of (mode : Mode) (stats : Stats) : Messages :=
  match mode with
  | Watch => formatWebpackMessage (toJson stats JsonTrue)
  | OneShot => formatWebpackMessage (toJson stats JsonEmptyObject)
  end.

Definition pass (mode : Mode) (stats : Stats) : M unit :=
  match mode with
  | Watch => taroDone stats
  | OneShot => runCallback VNull stats
  end.

(* ------------------------------------------------------------------ *)
(** ** The settings [buildDev] listens with (index.ts 145-149)

    [config.devServer] and the result of [buildConf] are plain objects; a
    key of [devServer] can be absent.  Of the values a setting can hold,
    booleans, numbers and strings are kept apart from [undefined]. *)

Inductive Setting :=
| SUndefined
| SBool (b : bool)
| SNum (n : Z)
| SStr (s : jsstring).

Definition setting_truthy (v : Setting) : bool :=
  match v with
  | SUndefined => false
  | SBool b => b
  | SNum n => negb (n =? 0)%Z
  | SStr s => has_length s
  end.

(** [a || b] on settings *)
Definition setting_or (a b : Setting) : Setting :=
  if setting_truthy a then a else b.

Record DevServerOptions := mkDevServerOptions {
  ds_https : option Setting;     (* None: the key is absent *)
  ds_host : option Setting;
  ds_port : option Setting
}.

Record BuildConf := mkBuildConf {
  conf_https : Setting;
  conf_host : Setting;
  conf_port : Setting
}.

(** [obj.key] *)
Definition read_key (o : option Setting) : Setting := default SUndefined o.

Record ListenSettings := mkListenSettings {
  ls_https : Setting;
  ls_protocol : jsstring;        (* the first argument of prepareUrls *)
  ls_host : Setting;
  ls_port : Setting
}.

Definition listenSettings (devServer : option DevServerOptions) (conf : BuildConf)
    : ListenSettings :=
  let customDevServerOptions := default (mkDevServerOptions None None None) devServer in
  let https :=
    match ds_https customDevServerOptions with
    | Some v => v                       (* 'https' in customDevServerOptions *)
    | None => conf_https conf
    end in
  let host := setting_or (read_key (ds_host customDevServerOptions)) (conf_host conf) in
  let port := setting_or (read_key (ds_port customDevServerOptions)) (conf_port conf) in
  mkListenSettings https (if setting_truthy https then js "https" else js "http") host port.

(* ------------------------------------------------------------------ *)
(** ** Further vocabulary *)

(** The outcome a pass has by its messages: errors first, then warnings. *)
Definition classify (m : Messages) : BuildOutcome :=
  if has_length (errors m) then Failure
  else if has_length (warnings m) then WarningsOnly
  else Success.

(** The spinner instance an event goes through, if any. *)
Definition spinner_of (e : Event) : option nat :=
  match e with
  | OraStart r | OraRender r | OraClear r | OraStopAndPersist r _ _ => Some r
  | _ => None
  end.

Definition is_opn (e : Event) : bool :=
  match e with Opn _ => true | _ => false end.

Definition is_stdout_write (e : Event) : bool :=
  match e with StdoutWrite _ => true | _ => false end.

(** Browser windows opened, summaries written. *)
Definition opens (evs : list Event) : nat := length (List.filter is_opn evs).
Definition summaries (evs : list Event) : nat := length (List.filter is_stdout_write evs).

(** A [server.listen] callback without error. *)
Definition is_clean_listen (op : Op) : bool :=
  match op with
  | CallListenCallback _ err => negb (truthy err)
  | _ => false
  end.

(** A run callback without engine error on a result without messages. *)
Definition is_clean_run (op : Op) : bool :=
  match op with
  | CallRunCallback err stats =>
      negb (truthy err)
      && negb (has_length (errors (messages_of OneShot stats)))
      && negb (has_length (warnings (messages_of OneShot stats)))
  | _ => false
  end.

(** The two labels the spinner is ever given. *)
Definition known_label (o : OraObj) : Prop :=
  ora_text o = js "Starting development server, please wait~"
  \/ ora_text o = js "Compiling...".

(** What an operation may put on the terminal, given the instance [r] the
    spinner has. *)
Definition event_allowed (op : Op) (r : nat) (e : Event) : Prop :=
  match e with
  | OraStart r' | OraRender r' | OraClear r' | OraStopAndPersist r' _ _ => r' = r
  | ConsoleLog _ => True
  | StdoutWrite _ => is_clean_run op = true
  | Opn url =>
      match op with
      | CallListenCallback urls err => truthy err = false /\ url = localUrlForBrowser urls
      | _ => False
      end
  end.

(* ------------------------------------------------------------------ *)
(** ** [printBuildError] on values outside its parameter type

    [Val] holds what the declared type [Error] and its callers give:
    [undefined], [null], primitives that convert to a string, and error
    objects.  JavaScript does not stop a caller from passing anything
    else.  Two such values have no conversion to a string: a symbol, and
    an object without prototype and without properties
    ([Object.create(null)]). *)

Inductive JsValue :=
| Plain (v : Val)
| JSymbol (description : jsstring)
| JBareObject.

(** [v != null] *)
Definition not_nullish_any (v : JsValue) : bool :=
  match v with
  | Plain v => not_nullish v
  | JSymbol _ | JBareObject => true
  end.

(** [v.message] and [v.stack]: neither [Symbol.prototype] nor a bare
    object has them. *)
Definition get_message_any (v : JsValue) : M Val :=
  match v with
  | Plain v => get_message v
  | JSymbol _ | JBareObject => ret VUndefined
  end.

Definition get_stack_any (v : JsValue) : M Val :=
  match v with
  | Plain v => get_stack v
  | JSymbol _ | JBareObject => ret VUndefined
  end.

(** [a || b] *)
Definition js_or_any (a : Val) (b : JsValue) : JsValue :=
  if truthy a then Plain a else b.

(** [v + s] for a string [s]: [v] is converted to a primitive and then
    to a string, which a symbol and a bare object refuse. *)
Definition concat_string (v : JsValue) (s : jsstring) : M jsstring :=
  match v with
  | Plain v => ret (toString v ++ s)
  | JSymbol _ => throw (typeError "Cannot convert a Symbol value to a string")
  | JBareObject => throw (typeError "Cannot convert object to primitive value")
  end.

(** A value as an argument of [console.log], which shows a symbol and a
    bare object by inspection. *)
Definition arg_of (v : JsValue) : Arg :=
  match v with
  | Plain v => AVal v
  | JSymbol description => AText (plain (js "Symbol(" ++ description ++ js ")"))
  | JBareObject => AText (plain (js "[Object: null prototype] {}"))
  end.

(** [printBuildError] (index.ts 28-48) again, on any of these values. *)
Definition printBuildErrorAny (err : JsValue) : M unit :=
  let* message := (if not_nullish_any err then get_message_any err else ret (VBool false)) in
  let* stack := (if not_nullish_any err then get_stack_any err else ret (VBool false)) in
  (if truthy stack && has_marker message then
     try_catch
       (match exec minifyRe (toString stack) with
        | None =>
            throw (VErr (newError 35 (js "Using errors for control flow is bad.")))
        | Some matched =>
            let problemPath := cap matched 2 in
            let line := cap matched 3 in
            let column := cap matched 4 in
            console_log
              [ AText (plain (js "Failed to minify the code from this file: " ++ [LF; LF]));
                AText (chalk yellow (plain (location problemPath line column)));
                AText (plain [LF]) ]
        end)
       (fun ignored =>
          console_log [AText (plain (js "Failed to minify the bundle.")); arg_of err])
   else
     let* text := concat_string (js_or_any message err) [LF] in
     console_log [AText (plain text)]) >>
  console_log [].

(* ------------------------------------------------------------------ *)
(** * Properties *)

(** ** The spinner and the monad *)

Lemma getServeSpinner_run (w : World) :
  getServeSpinner w = (Ret (spinner_ref w), touched w, []).
Proof.
  unfold getServeSpinner, spinner_ref, touched, bind, get_world.
  destruct w as [[r|] os f]; reflexivity.
Qed.

Lemma spinner_ref_touched (w : World) : spinner_ref (touched w) = spinner_ref w.
Proof. destruct w as [[r|] os f]; reflexivity. Qed.

Lemma touched_touched (w : World) : touched (touched w) = touched w.
Proof. destruct w as [[r|] os f]; reflexivity. Qed.

(** A persisted line through the shared spinner. *)
Lemma persist_run (sym : jsstring) (t : Text) (w : World) :
  (let* s := getServeSpinner in stopAndPersist s sym t) w
  = (Ret tt, touched w, [OraStopAndPersist (spinner_ref w) sym t]).
Proof. unfold bind. rewrite getServeSpinner_run. reflexivity. Qed.

Lemma bind_run {A B} (m : M A) (f : A -> M B) (w w1 : World) (a : A) (out : list Event) :
  m w = (Ret a, w1, out) ->
  bind m f w = (outcome_of (f a w1), world_of (f a w1), out ++ events_of (f a w1)).
Proof.
  intros E. unfold bind. rewrite E.
  destruct (f a w1) as [[r w2] out2]. reflexivity.
Qed.

(** ** [printBuildError] always returns *)

Lemma printBuildError_total (err : Val) (w : World) :
  exists args,
    printBuildError err w = (Ret tt, w, [ConsoleLog args; ConsoleLog []]) /\
    is_banner_line (ConsoleLog args) = false.
Proof.
  unfold printBuildError.
  destruct err as [| | b | s | [n m st]];
    cbn [not_nullish get_message get_stack]; unfold bind at 1 2 3; cbn [ret];
    try (eexists; split; reflexivity).
  destruct (truthy (of_prop (err_stack _)) && has_marker (of_prop (err_message _)));
    [|eexists; split; reflexivity].
  unfold try_catch.
  destruct (exec minifyRe _); eexists; split; reflexivity.
Qed.

Lemma printBuildError_world (err : Val) (w : World) :
  world_of (printBuildError err w) = w.
Proof. destruct (printBuildError_total err w) as [args [E _]]. rewrite E. reflexivity. Qed.

Lemma printBuildError_returns (err : Val) (w : World) :
  outcome_of (printBuildError err w) = Ret tt.
Proof. destruct (printBuildError_total err w) as [args [E _]]. rewrite E. reflexivity. Qed.

(** ** One compile pass, case by case *)

Lemma taroDone_run (stats : Stats) (w : World) :
  let m := formatWebpackMessage (toJson stats JsonTrue) in
  let r := spinner_ref w in
  taroDone stats w =
    (Ret tt, touched w,
     (if negb (has_length (errors m)) && negb (has_length (warnings m))
      then [line_success r] else [])
     ++ match errors m with
        | e :: _ => [line_failed r; log_plain (e ++ [LF])]
        | [] => []
        end
     ++ match warnings m with
        | x :: _ => [line_warnings r; log_plain (x ++ [LF])]
        | [] => []
        end).
Proof.
  unfold taroDone. cbn zeta.
  destruct (formatWebpackMessage (toJson stats JsonTrue)) as [[|e es] [|x xs]];
    destruct w as [[r|] os f]; reflexivity.
Qed.

Lemma runCallback_success (err : Val) (stats : Stats) (w : World) :
  truthy err = false ->
  errors (messages_of OneShot stats) = [] ->
  warnings (messages_of OneShot stats) = [] ->
  runCallback err stats w =
    (Ret tt, touched w,
     [line_success (spinner_ref w);
      StdoutWrite (statsToString stats (mkToStringOptions true false false false false)
                     ++ [LF])]).
Proof.
  unfold messages_of, runCallback. intros ->. intros -> ->.
  destruct w as [[r|] os f]; reflexivity.
Qed.

Lemma runCallback_errors (err : Val) (stats : Stats) (w : World) (e : jsstring) (es : list jsstring) :
  truthy err = false ->
  errors (messages_of OneShot stats) = e :: es ->
  runCallback err stats w =
    (Ret tt, touched w,
     line_failed (spinner_ref w)
       :: events_of (printBuildError (VErr (newError 127 e)) (touched w))).
Proof.
  unfold messages_of, runCallback. intros ->. intros ->.
  cbn [has_length negb andb splice snd firstn join]. rewrite firstn_O.
  erewrite bind_run by apply persist_run.
  destruct (printBuildError_total (VErr (newError 127 e)) (touched w)) as [args [E _]].
  rewrite E. reflexivity.
Qed.

Lemma runCallback_warnings (err : Val) (stats : Stats) (w : World) (x : jsstring) (xs : list jsstring) :
  truthy err = false ->
  errors (messages_of OneShot stats) = [] ->
  warnings (messages_of OneShot stats) = x :: xs ->
  runCallback err stats w =
    (Ret tt, touched w,
     [line_warnings (spinner_ref w); log_plain (join [LF; LF] (x :: xs));
      guidance_keywords; guidance_ignore]).
Proof.
  unfold messages_of, runCallback. intros ->. intros -> ->.
  destruct w as [[r|] os f]; reflexivity.
Qed.

(** ** The outcome of a pass *)

(** C3. A compile result without errors and without warnings is a
    Success: the pass returns, the only persisted line is the green
    'Compile successfully!', and in one-shot mode the stats summary, asked
    for with modules, children and chunks switched off, is written after
    it; in watch mode nothing else is emitted. *)
Theorem success_pass (mode : Mode) (stats : Stats) (w : World) :
  errors (messages_of mode stats) = [] ->
  warnings (messages_of mode stats) = [] ->
  outcome_of (pass mode stats w) = Ret tt /\
  outcomes_of (events_of (pass mode stats w)) = [Success] /\
  List.filter is_persist (events_of (pass mode stats w)) = [line_success (spinner_ref w)] /\
  events_of (pass mode stats w) =
    line_success (spinner_ref w)
      :: match mode with
         | Watch => []
         | OneShot =>
             [StdoutWrite
                (statsToString stats
                   {| colors := true; modules := false; children := false;
                      chunks := false; chunkModules := false |} ++ [LF])]
         end.
Proof.
  intros He Hw. destruct mode; unfold pass.
  - rewrite taroDone_run. cbn zeta. unfold messages_of in He, Hw.
    rewrite He, Hw. repeat split; reflexivity.
  - rewrite (runCallback_success VNull _ _ eq_refl He Hw). repeat split; reflexivity.
Qed.

(** With no error and at least one warning the pass is WarningsOnly with
    the yellow persisted line.  In watch mode the first warning alone is
    printed.  In one-shot mode every warning is printed, joined by blank
    lines, followed by the two guidance lines. *)
Lemma warnings_only_pass (mode : Mode) (stats : Stats) (w : World)
    (x : jsstring) (xs : list jsstring) :
  errors (messages_of mode stats) = [] ->
  warnings (messages_of mode stats) = x :: xs ->
  outcome_of (pass mode stats w) = Ret tt /\
  outcomes_of (events_of (pass mode stats w)) = [WarningsOnly] /\
  events_of (pass mode stats w) =
    line_warnings (spinner_ref w)
      :: match mode with
         | Watch => [log_plain (x ++ [LF])]
         | OneShot =>
             [log_plain (join [LF; LF] (x :: xs)); guidance_keywords; guidance_ignore]
         end.
Proof.
  intros He Hw. destruct mode; unfold pass.
  - rewrite taroDone_run. cbn zeta. unfold messages_of in He, Hw.
    rewrite He, Hw. repeat split; reflexivity.
  - rewrite (runCallback_warnings VNull _ _ _ _ eq_refl He Hw). repeat split; reflexivity.
Qed.

(** C6. With at least one error the error sequence is cut to its first
    element before it is joined and printed.  Watch mode prints the red
    line, that one error, and then only what the warnings give rise to;
    one-shot mode prints the red line and hands an [Error] made of that one
    error to [printBuildError], which prints it as it is when it does not
    carry the minifier marker. *)
Theorem one_error_entry (mode : Mode) (stats : Stats) (w : World)
    (e : jsstring) (es : list jsstring) :
  errors (messages_of mode stats) = e :: es ->
  join [LF; LF] (snd (splice 1 (e :: es))) = e /\
  match mode with
  | Watch =>
      events_of (pass Watch stats w) =
        [line_failed (spinner_ref w); log_plain (e ++ [LF])]
        ++ match warnings (messages_of Watch stats) with
           | x :: _ => [line_warnings (spinner_ref w); log_plain (x ++ [LF])]
           | [] => []
           end
  | OneShot =>
      events_of (pass OneShot stats w) =
        line_failed (spinner_ref w)
          :: events_of (printBuildError (VErr (newError 127 e)) (touched w)) /\
      (has_marker (VStr e) = false -> has_length e = true ->
       events_of (pass OneShot stats w) =
         [line_failed (spinner_ref w); log_plain (e ++ [LF]); ConsoleLog []])
  end.
Proof.
  intros He. split; [reflexivity|]. destruct mode; unfold pass.
  - rewrite taroDone_run. cbn zeta. unfold messages_of in *. rewrite He.
    cbn [has_length negb andb app]. reflexivity.
  - rewrite (runCallback_errors VNull _ _ _ _ eq_refl He). split; [reflexivity|].
    intros Hm Hl. cbn [events_of snd]. f_equal.
    unfold printBuildError, newError.
    cbn [not_nullish get_message get_stack]. unfold bind at 1 2 3.
    cbn [ret of_prop err_message err_stack]. rewrite Hm, andb_false_r.
    unfold js_or. cbn [truthy]. rewrite Hl. reflexivity.
Qed.

(** C1, as the code has it. In watch mode a pass with at least one
    error and at least one warning is rendered twice, as Failure and then
    as WarningsOnly: the red line and the first error are followed by the
    yellow line and the first warning. *)
Theorem watch_failure_also_renders_warnings (stats : Stats) (w : World)
    (e x : jsstring) (es xs : list jsstring) :
  errors (messages_of Watch stats) = e :: es ->
  warnings (messages_of Watch stats) = x :: xs ->
  events_of (pass Watch stats w) =
    [ line_failed (spinner_ref w); log_plain (e ++ [LF]);
      line_warnings (spinner_ref w); log_plain (x ++ [LF]) ] /\
  outcomes_of (events_of (pass Watch stats w)) = [Failure; WarningsOnly].
Proof.
  intros He Hw. unfold pass. rewrite taroDone_run. cbn zeta.
  unfold messages_of in *. rewrite He, Hw. split; reflexivity.
Qed.

(** In one-shot mode the same input renders Failure alone. *)
Lemma oneshot_failure_is_exclusive (stats : Stats) (w : World)
    (e : jsstring) (es : list jsstring) :
  errors (messages_of OneShot stats) = e :: es ->
  outcomes_of (events_of (pass OneShot stats w)) = [Failure].
Proof.
  intros He. unfold pass. rewrite (runCallback_errors VNull _ _ _ _ eq_refl He).
  destruct (printBuildError_total (VErr (newError 127 e)) (touched w)) as [args [E _]].
  rewrite E. reflexivity.
Qed.

(** C8. When the run callback is handed an engine error, it is
    [printBuildError] on that error and nothing else: the call returns, the
    world is left as it was (the spinner is not even looked up), no line is
    persisted, and every event is a [console.log]. *)
Theorem engine_error_leaves_spinner (e : ErrorObj) (stats : Stats) (w : World) :
  runCallback (VErr e) stats w = printBuildError (VErr e) w /\
  outcome_of (runCallback (VErr e) stats w) = Ret tt /\
  world_of (runCallback (VErr e) stats w) = w /\
  List.filter is_persist (events_of (runCallback (VErr e) stats w)) = [] /\
  outcomes_of (events_of (runCallback (VErr e) stats w)) = [] /\
  forallb is_console_log (events_of (runCallback (VErr e) stats w)) = true.
Proof.
  assert (E : runCallback (VErr e) stats w = printBuildError (VErr e) w) by reflexivity.
  rewrite E. destruct (printBuildError_total (VErr e) w) as [args [E' _]].
  rewrite E'. repeat split; reflexivity.
Qed.


(** ** Every operation, one by one *)

Lemma taroInvalid_run (w : World) :
  taroInvalid w = (Ret tt, relabelled w, [OraRender (spinner_ref w)]).
Proof. destruct w as [[r|] os f]; reflexivity. Qed.

Lemma buildProd_run (w : World) :
  buildProd w = (Ret tt, relabelled w, [OraStart (spinner_ref w)]).
Proof. destruct w as [[r|] os f]; reflexivity. Qed.

Lemma buildDev_run (w : World) :
  buildDev w = (Ret tt, relabelled w, [ConsoleLog []; OraStart (spinner_ref w)]).
Proof. destruct w as [[r|] os f]; reflexivity. Qed.

Lemma listenCallback_run (urls : Urls) (err : Val) (w : World) :
  listenCallback urls err w =
    (Ret tt, w, [if truthy err then ConsoleLog [AVal err] else Opn (localUrlForBrowser urls)]).
Proof. unfold listenCallback. destruct (truthy err); reflexivity. Qed.

Lemma taroDoneFirst_run (urls : Urls) (w : World) :
  taroDoneFirst urls w =
    if isFirst w
    then (Ret tt, touched (mkWorld (spinner w) (oras w) false), banner urls (spinner_ref w))
    else (Ret tt, w, []).
Proof. destruct w as [[r|] os [|]]; reflexivity. Qed.

Lemma runCallback_run (err : Val) (stats : Stats) (w : World) :
  exists w' evs,
    runCallback err stats w = (Ret tt, w', evs) /\
    (w' = w \/ w' = touched w) /\
    banner_lines evs = 0.
Proof.
  destruct (truthy err) eqn:T.
  - unfold runCallback. rewrite T.
    destruct (printBuildError_total err w) as [args [E B]].
    exists w, [ConsoleLog args; ConsoleLog []]. split; [exact E|]. split; [now left|].
    unfold banner_lines. cbn [List.filter]. rewrite B. reflexivity.
  - destruct (errors (messages_of OneShot stats)) as [|e es] eqn:He.
    + destruct (warnings (messages_of OneShot stats)) as [|x xs] eqn:Hw.
      * rewrite (runCallback_success _ _ _ T He Hw).
        eexists _, _. split; [reflexivity|]. split; [now right|reflexivity].
      * rewrite (runCallback_warnings _ _ _ _ _ T He Hw).
        eexists _, _. split; [reflexivity|]. split; [now right|reflexivity].
    + rewrite (runCallback_errors _ _ _ _ _ T He).
      destruct (printBuildError_total (VErr (newError 127 e)) (touched w)) as [args [E B]].
      rewrite E. eexists _, _. split; [reflexivity|]. split; [now right|].
      unfold banner_lines, events_of. cbn [snd List.filter]. rewrite B. reflexivity.
Qed.

(** ** Invariants of the process *)

Lemma one_spinner_touched (w : World) : one_spinner w -> one_spinner (touched w).
Proof.
  destruct w as [[r|] os f]; unfold one_spinner, touched; cbn; [tauto|].
  intros ->. split; reflexivity.
Qed.

Lemma one_spinner_relabelled (w : World) : one_spinner w -> one_spinner (relabelled w).
Proof.
  intros H. apply one_spinner_touched in H. revert H.
  unfold one_spinner, relabelled. cbn [spinner oras].
  destruct (spinner (touched w)); [|intros ->; reflexivity].
  rewrite length_insert. tauto.
Qed.

Lemma one_spinner_latch (w : World) (b : bool) :
  one_spinner w -> one_spinner (mkWorld (spinner w) (oras w) b).
Proof. exact id. Qed.

Lemma isFirst_touched (w : World) : isFirst (touched w) = isFirst w.
Proof. destruct w as [[r|] os f]; reflexivity. Qed.

Lemma one_spinner_ref (w : World) : one_spinner w -> spinner_ref w = 0.
Proof.
  destruct w as [[r|] os f]; unfold one_spinner, spinner_ref; cbn.
  - tauto.
  - intros ->. reflexivity.
Qed.

Lemma one_spinner_bound (w : World) : one_spinner w -> length (oras w) <= 1.
Proof.
  destruct w as [[r|] os f]; unfold one_spinner; cbn.
  - intros [_ ->]. lia.
  - intros ->. cbn. lia.
Qed.

Lemma one_spinner_after_call (w : World) :
  one_spinner w -> length (oras (touched w)) = 1.
Proof.
  destruct w as [[r|] os f]; unfold one_spinner, touched; cbn.
  - tauto.
  - intros ->. reflexivity.
Qed.

Lemma banners_le_banner_lines (evs : list Event) : banners evs <= banner_lines evs.
Proof.
  unfold banners, banner_lines. induction evs as [|e evs IH]; cbn [List.filter]; [lia|].
  destruct (is_watching_line e) eqn:W.
  - assert (B : is_banner_line e = true).
    { destruct e as [| | | | [|[[|[[|[] []] ?] []]|] []] | |]; try discriminate W.
      reflexivity. }
    rewrite B. cbn [length]. lia.
  - destruct (is_banner_line e); cbn [length]; lia.
Qed.

Lemma banners_app (a b : list Event) : banners (a ++ b) = banners a + banners b.
Proof. unfold banners. rewrite List.filter_app, length_app. reflexivity. Qed.

Lemma banner_lines_app (a b : list Event) :
  banner_lines (a ++ b) = banner_lines a + banner_lines b.
Proof. unfold banner_lines. rewrite List.filter_app, length_app. reflexivity. Qed.

Lemma taroDone_quiet (stats : Stats) (w : World) :
  banner_lines (events_of (taroDone stats w)) = 0.
Proof.
  rewrite taroDone_run. cbn zeta.
  destruct (formatWebpackMessage (toJson stats JsonTrue)) as [[|e es] [|x xs]]; reflexivity.
Qed.

(** What an operation can do to the spinner and to the latch. *)
Lemma run_op_effect (op : Op) (w : World) :
  exists w' evs,
    run_op op w = (Ret tt, w', evs) /\
    (one_spinner w -> one_spinner w') /\
    ((isFirst w' = isFirst w /\ banners evs = 0) \/
     (isFirst w = true /\ isFirst w' = false /\ banners evs = 1)).
Proof.
  assert (Z : forall evs, banner_lines evs = 0 -> banners evs = 0).
  { intros evs H. pose proof (banners_le_banner_lines evs). lia. }
  destruct op as [[|] | | err | | stats | urls | | err stats | | urls err];
    cbn [run_op runner].
  - rewrite buildDev_run. eexists _, _. split; [reflexivity|].
    split; [apply one_spinner_relabelled|]. left. split; reflexivity.
  - rewrite buildProd_run. eexists _, _. split; [reflexivity|].
    split; [apply one_spinner_relabelled|]. left. split; reflexivity.
  - eexists _, _. split; [unfold bind; rewrite getServeSpinner_run; reflexivity|].
    split; [apply one_spinner_touched|]. left. split; [apply isFirst_touched|reflexivity].
  - destruct (printBuildError_total err w) as [args [E B]]. rewrite E.
    eexists _, _. split; [reflexivity|]. split; [exact id|]. left. split; [reflexivity|].
    apply Z. unfold banner_lines. cbn [List.filter]. rewrite B. reflexivity.
  - rewrite taroInvalid_run. eexists _, _. split; [reflexivity|].
    split; [apply one_spinner_relabelled|]. left. split; reflexivity.
  - pose proof (taroDone_quiet stats w) as Q. rewrite taroDone_run in Q |- *. cbn zeta in *.
    eexists _, _. split; [reflexivity|].
    split; [apply one_spinner_touched|]. left. split; [apply isFirst_touched|].
    apply Z, Q.
  - rewrite taroDoneFirst_run. destruct (isFirst w) eqn:F.
    + eexists _, _. split; [reflexivity|]. split.
      * intros H. apply one_spinner_touched. exact H.
      * right. split; [first [reflexivity | exact F]|]. split; [apply isFirst_touched|reflexivity].
    + eexists _, _. split; [reflexivity|]. split; [exact id|]. left.
      split; [first [reflexivity | exact F]|reflexivity].
  - rewrite buildProd_run. eexists _, _. split; [reflexivity|].
    split; [apply one_spinner_relabelled|]. left. split; reflexivity.
  - destruct (runCallback_run err stats w) as (w' & evs & E & [-> | ->] & B); rewrite E;
      eexists _, _; (split; [reflexivity|]).
    + split; [exact id|]. left. split; [reflexivity|apply Z, B].
    + split; [apply one_spinner_touched|]. left. split; [apply isFirst_touched|apply Z, B].
  - rewrite buildDev_run. eexists _, _. split; [reflexivity|].
    split; [apply one_spinner_relabelled|]. left. split; reflexivity.
  - rewrite listenCallback_run. eexists _, _. split; [reflexivity|].
    split; [exact id|]. left. split; [reflexivity|]. destruct (truthy err); reflexivity.
Qed.

Lemma run_ops_one_spinner (ops : list Op) (w : World) :
  one_spinner w -> one_spinner (fst (run_ops ops w)).
Proof.
  revert w. induction ops as [|op ops IH]; intros w H; cbn [run_ops fst]; [exact H|].
  apply IH. destruct (run_op_effect op w) as (w' & evs & E & J & _).
  rewrite E. apply J, H.
Qed.

Lemma run_ops_banners (ops : list Op) (w : World) :
  banners (snd (run_ops ops w)) <= (if isFirst w then 1 else 0).
Proof.
  revert w. induction ops as [|op ops IH]; intros w; cbn [run_ops snd].
  - destruct (isFirst w); cbn; lia.
  - destruct (run_op_effect op w) as (w' & evs & E & _ & L).
    rewrite E. cbn [events_of world_of fst snd]. rewrite banners_app.
    specialize (IH w').
    destruct L as [[F B] | (F & F' & B)].
    + rewrite F in IH. lia.
    + rewrite F' in IH. rewrite F. lia.
Qed.

(** C7. The process has at most one spinner instance.  After any
    sequence of operations at most one instance exists; a call of
    [getServeSpinner] there returns instance 0 and leaves exactly one
    instance; and a call after any further operations returns the same
    instance. *)
Theorem one_spinner_per_process (ops later : list Op) :
  let w := fst (run_ops ops initial) in
  length (oras w) <= 1 /\
  outcome_of (getServeSpinner w) = Ret 0 /\
  length (oras (world_of (getServeSpinner w))) = 1 /\
  outcome_of (getServeSpinner (fst (run_ops later w))) = outcome_of (getServeSpinner w).
Proof.
  intros w.
  assert (J : one_spinner w) by (apply run_ops_one_spinner; reflexivity).
  assert (J' : one_spinner (fst (run_ops later w))) by (apply run_ops_one_spinner, J).
  rewrite !getServeSpinner_run. unfold outcome_of, world_of. cbn [fst snd].
  rewrite (one_spinner_ref _ J), (one_spinner_ref _ J').
  split; [apply one_spinner_bound, J|]. split; [reflexivity|].
  split; [apply one_spinner_after_call, J|reflexivity].
Qed.

(** ** The first-listen latch *)

Lemma compileDone_run (urls : Urls) (stats : Stats) (w : World) :
  exists w',
    compileDone urls stats w =
      (Ret tt, w',
       events_of (taroDone stats w)
         ++ (if isFirst w then banner urls (spinner_ref w) else [])) /\
    isFirst w' = false.
Proof.
  unfold compileDone. erewrite bind_run by apply taroDone_run.
  rewrite taroDoneFirst_run, isFirst_touched, spinner_ref_touched.
  rewrite taroDone_run. cbn zeta. destruct (isFirst w) eqn:F.
  - eexists. split; [reflexivity|]. apply isFirst_touched.
  - eexists. split; [reflexivity|]. cbn [world_of fst snd]. rewrite isFirst_touched. exact F.
Qed.

Lemma watch_trace_quiet (urls : Urls) (passes : list Stats) (w : World) :
  isFirst w = false ->
  Forall (fun evs => banner_lines evs = 0) (watch_trace urls passes w).
Proof.
  revert w. induction passes as [|stats passes IH]; intros w F; cbn [watch_trace].
  - constructor.
  - destruct (compileDone_run urls stats w) as (w' & E & F'). rewrite E, F.
    cbn [events_of world_of fst snd]. constructor.
    + rewrite app_nil_r. apply taroDone_quiet.
    + apply IH, F'.
Qed.

Lemma quiet_concat (l : list (list Event)) :
  Forall (fun evs => banner_lines evs = 0) l -> banners (concat l) = 0.
Proof.
  induction 1 as [|evs l H _ IH]; [reflexivity|].
  cbn [concat]. rewrite banners_app, IH.
  pose proof (banners_le_banner_lines evs). lia.
Qed.

(** C5. In a process whose latch is still set, a series of
    compile-complete events in watch mode prints the banner (spinner
    cleared, a blank line, the two 'Listening at' lines, the
    watching-for-changes line) at the end of the first event and in no later
    one; and whatever operations a process runs, and in whatever order, it
    prints at most one banner. *)
Theorem first_listen_banner_once (urls : Urls) (stats : Stats) (passes : list Stats)
    (w : World) :
  isFirst w = true ->
  head (watch_trace urls (stats :: passes) w)
    = Some (events_of (taroDone stats w) ++ banner urls (spinner_ref w)) /\
  banner_lines (events_of (taroDone stats w)) = 0 /\
  Forall (fun evs => banner_lines evs = 0) (tail (watch_trace urls (stats :: passes) w)) /\
  banners (concat (watch_trace urls (stats :: passes) w)) = 1 /\
  forall ops : list Op, banners (snd (run_ops ops initial)) <= 1.
Proof.
  intros F. cbn [watch_trace head tail concat].
  destruct (compileDone_run urls stats w) as (w' & E & F'). rewrite E, F.
  cbn [events_of world_of fst snd].
  pose proof (watch_trace_quiet urls passes w' F') as Q.
  split; [reflexivity|]. split; [apply taroDone_quiet|]. split; [exact Q|]. split.
  - rewrite !banners_app, (quiet_concat _ Q).
    pose proof (banners_le_banner_lines (events_of (taroDone stats w))) as L.
    pose proof (taroDone_quiet stats w) as T.
    assert (B : banners (banner urls (spinner_ref w)) = 1) by reflexivity.
    lia.
  - intros ops. apply (run_ops_banners ops initial).
Qed.

(* ------------------------------------------------------------------ *)
(** ** The matcher *)

Lemma consumed_eq (s u v : jsstring) : s = u ++ v -> consumed s v = u.
Proof.
  intros ->. unfold consumed. rewrite length_app.
  replace (length u + length v - length v) with (length u) by lia.
  apply take_app_length.
Qed.

Lemma exec_unfold (r : Re) (s : jsstring) :
  exec r s =
    match match_here r s with
    | Some c => Some c
    | None => match s with [] => None | _ :: s' => exec r s' end
    end.
Proof. destruct s; reflexivity. Qed.

Section Greedy.
Context {R : Type}.
Implicit Types (k : jsstring -> option R) (a : Atom) (s u v : jsstring).

(** A successful [a+] consumed a non-empty run of [a]. *)
Lemma rep1_sound a s k (r : R) :
  rep1 a s k = Some r ->
  exists u v, s = u ++ v /\ u <> [] /\ forallb (atom_ok a) u = true /\ k v = Some r.
Proof.
  induction s as [|ch s IH]; cbn [rep1]; [discriminate|].
  destruct (atom_ok a ch) eqn:A; [|discriminate].
  destruct (rep1 a s k) as [r0|] eqn:E.
  - intros [= <-]. destruct (IH eq_refl) as (u & v & -> & _ & Hu & Hk).
    exists (ch :: u), v. cbn [forallb]. rewrite A, Hu. repeat split; [discriminate|exact Hk].
  - intros Hk. exists [ch], s. cbn [forallb]. rewrite A. repeat split; [discriminate|exact Hk].
Qed.

(** A failed [a+] tried every non-empty run of [a]. *)
Lemma rep1_none a s k :
  rep1 a s k = None ->
  forall u v, s = u ++ v -> u <> [] -> forallb (atom_ok a) u = true -> k v = None.
Proof.
  induction s as [|ch s IH]; intros H u v E Hu Ha.
  - destruct u; [contradiction|discriminate].
  - destruct u as [|c u]; [contradiction|]. cbn [app] in E. injection E as -> ->.
    cbn [forallb] in Ha. apply andb_true_iff in Ha as [Hc Ha].
    cbn [rep1] in H. rewrite Hc in H.
    destruct (rep1 a (u ++ v) k) eqn:E; [discriminate|].
    destruct u as [|c' u]; [exact H|].
    apply (IH eq_refl (c' :: u) v); [reflexivity|discriminate|exact Ha].
Qed.

Lemma rep1_none_intro a s k :
  (forall u v, s = u ++ v -> u <> [] -> forallb (atom_ok a) u = true -> k v = None) ->
  rep1 a s k = None.
Proof.
  intros H. destruct (rep1 a s k) eqn:E; [|reflexivity].
  apply rep1_sound in E as (u & v & Es & Hu & Ha & Hk).
  rewrite (H u v Es Hu Ha) in Hk. discriminate.
Qed.

(** Greedy choice: a run after which the continuation succeeds is the one
    taken when the continuation fails after every longer run. *)
Lemma rep1_longest a u v k (r : R) :
  u <> [] -> forallb (atom_ok a) u = true ->
  (forall u' v', v = u' ++ v' -> u' <> [] -> forallb (atom_ok a) u' = true ->
                 k v' = None) ->
  k v = Some r ->
  rep1 a (u ++ v) k = Some r.
Proof.
  intros Hu Ha Hlater Hk. induction u as [|c u IH]; [contradiction|].
  cbn [forallb] in Ha. apply andb_true_iff in Ha as [Hc Ha].
  cbn [app rep1]. rewrite Hc. destruct u as [|c' u].
  - cbn [app]. rewrite (rep1_none_intro a v k Hlater). exact Hk.
  - rewrite IH; [reflexivity|discriminate|exact Ha].
Qed.

End Greedy.

(** What the matcher accepts is in the language of the expression. *)
Lemma matcher_sound (r : Re) :
  forall s c k res,
    matcher r s c k = Some res ->
    exists u v c', s = u ++ v /\ Lang r u /\ k v c' = Some res.
Proof.
  induction r as [a | a | i r IH | r1 IH1 r2 IH2]; intros s c k res H; cbn [matcher] in H.
  - destruct s as [|ch s]; [discriminate|]. destruct (atom_ok a ch) eqn:A; [|discriminate].
    exists [ch], s, c. split; [reflexivity|]. split; [|exact H]. exists ch. now split.
  - apply rep1_sound in H as (u & v & -> & Hu & Ha & Hk).
    exists u, v, c. repeat split; assumption.
  - apply IH in H as (u & v & c' & -> & L & Hk).
    exists u, v, (<[i := Some (consumed (u ++ v) v)]> c'). repeat split; assumption.
  - apply IH1 in H as (u1 & v1 & c1 & -> & L1 & H).
    apply IH2 in H as (u2 & v & c2 & -> & L2 & Hk).
    exists (u1 ++ u2), v, c2. rewrite <- app_assoc. split; [reflexivity|].
    split; [|exact Hk]. exists u1, u2. repeat split; assumption.
Qed.

(** A failed matcher has tried every word of the language. *)
Lemma matcher_none (r : Re) :
  forall s c k,
    blind k -> matcher r s c k = None ->
    forall u v c', s = u ++ v -> Lang r u -> k v c' = None.
Proof.
  induction r as [a | a | i r IH | r1 IH1 r2 IH2];
    intros s c k Bk H u v c' E L; cbn [matcher] in H; cbn [Lang] in L.
  - destruct L as (ch & -> & A). subst s. cbn [app] in H. rewrite A in H.
    apply (Bk _ _ _ H).
  - destruct L as [Hu Ha]. apply (Bk v c c').
    apply (rep1_none a s (fun s' => k s' c) H u v E Hu Ha).
  - set (k' := fun s' c0 => k s' (<[i := Some (consumed s s')]> c0)) in H.
    assert (Bk' : blind k') by (intros v0 c1 c2; apply Bk).
    apply (Bk v (<[i := Some (consumed s v)]> c') c').
    apply (IH s c k' Bk' H u v c' E L).
  - destruct L as (u1 & u2 & -> & L1 & L2). rewrite <- app_assoc in E.
    set (k1 := fun s' c0 => matcher r2 s' c0 k) in H.
    assert (Bk1 : blind k1).
    { intros v0 c1 c2 H0. unfold k1 in *.
      destruct (matcher r2 v0 c2 k) eqn:E2; [|reflexivity].
      apply matcher_sound in E2 as (u0 & v1 & c0 & -> & L0 & Hk).
      rewrite (IH2 _ _ _ Bk H0 u0 v1 c0 eq_refl L0) in Hk. discriminate. }
    pose proof (IH1 s c k1 Bk1 H u1 (u2 ++ v) c' E L1) as H1. unfold k1 in H1.
    apply (IH2 _ _ _ Bk H1 u2 v c' eq_refl L2).
Qed.

(** [exec] returns the match at the leftmost start that has one. *)
Lemma exec_sound (r : Re) (s : jsstring) (caps : Caps) :
  exec r s = Some caps ->
  exists b rest, s = b ++ rest /\ match_here r rest = Some caps.
Proof.
  induction s as [|ch s IH]; rewrite exec_unfold.
  - destruct (match_here r []) eqn:E; [|discriminate].
    intros [= <-]. exists [], []. split; [reflexivity|exact E].
  - destruct (match_here r (ch :: s)) eqn:E.
    + intros [= <-]. exists [], (ch :: s). split; [reflexivity|exact E].
    + intros H. destruct (IH H) as (b & rest & -> & Hm).
      exists (ch :: b), rest. split; [reflexivity|exact Hm].
Qed.

Lemma exec_none (r : Re) (s : jsstring) :
  exec r s = None -> forall b rest, s = b ++ rest -> match_here r rest = None.
Proof.
  induction s as [|ch s IH]; rewrite exec_unfold; intros H b rest E.
  - destruct b; [|discriminate]. cbn [app] in E. subst rest.
    destruct (match_here r []); [discriminate|reflexivity].
  - destruct (match_here r (ch :: s)) eqn:Em; [discriminate|].
    destruct b as [|c b]; cbn [app] in E.
    + subst rest. exact Em.
    + injection E as _ E. apply (IH H b rest E).
Qed.

Lemma exec_leftmost (r : Re) (b rest : jsstring) (caps : Caps) :
  (forall b1 b2, b = b1 ++ b2 -> b2 <> [] -> match_here r (b2 ++ rest) = None) ->
  match_here r rest = Some caps ->
  exec r (b ++ rest) = Some caps.
Proof.
  intros Hb Hm. induction b as [|c b IH]; rewrite exec_unfold; cbn [app].
  - rewrite Hm. reflexivity.
  - assert (H0 : match_here r (c :: b ++ rest) = None)
      by (apply (Hb [] (c :: b) eq_refl); discriminate).
    rewrite H0. apply IH. intros b1 b2 -> Hb2. apply (Hb (c :: b1) b2 eq_refl Hb2).
Qed.

(** ** The minifier pattern *)

Lemma text_run_iff (u : jsstring) :
  text_run u = true <-> u <> [] /\ forallb (atom_ok Dot) u = true.
Proof.
  unfold text_run. rewrite andb_true_iff. destruct u; cbn [has_length]; split.
  - intros [? _]. discriminate.
  - intros [? _]. contradiction.
  - intros [_ H]. split; [discriminate|exact H].
  - intros [_ H]. split; [reflexivity|exact H].
Qed.

Lemma minifyRe_unfold : minifyRe = Cat (Grp 1 (Rep1 Dot)) after1.
Proof. reflexivity. Qed.

Lemma consumed_app (u v : jsstring) : consumed (u ++ v) v = u.
Proof. apply consumed_eq. reflexivity. Qed.

Ltac literal H :=
  match type of H with
  | match ?s with _ => _ end = Some _ =>
      let ch := fresh "ch" in
      let C := fresh "C" in
      destruct s as [|ch s]; [discriminate H|];
      destruct (atom_ok _ ch) eqn:C; [|discriminate H];
      cbn [atom_ok] in C; apply N.eqb_eq in C; subst ch
  end.

(** A match of the pattern at the start of [s] reads [s] as free text and
    two bracketed groups, and captures the pieces it read. *)
Lemma match_here_sound (s : jsstring) (caps : Caps) :
  match_here minifyRe s = Some caps ->
  exists text path line column other rest,
    s = bracketed text path line column other ++ rest /\
    text_run text = true /\ text_run path = true /\ text_run line = true /\
    text_run column = true /\ text_run other = true /\
    caps = [ Some (bracketed text path line column other);
             Some text; Some path; Some line; Some column ].
Proof.
  unfold match_here. change (ngroups minifyRe) with 4. cbn [replicate].
  rewrite minifyRe_unfold. unfold after1, after2, after3, after4.
  cbn [matcher]. intros H.
  apply rep1_sound in H as (g1 & s1 & -> & N1 & A1 & H). literal H.
  apply rep1_sound in H as (g2 & s2 & -> & N2 & A2 & H). literal H.
  apply rep1_sound in H as (g3 & s3 & -> & N3 & A3 & H). literal H.
  apply rep1_sound in H as (g4 & s4 & -> & N4 & A4 & H). literal H. literal H.
  apply rep1_sound in H as (g5 & s5 & -> & N5 & A5 & H). literal H.
  exists g1, g2, g3, g4, g5, s5.
  assert (E : g1 ++ LBRACKET :: g2 ++ COLON :: g3 ++ COMMA :: g4
                 ++ RBRACKET :: LBRACKET :: g5 ++ RBRACKET :: s5
              = bracketed g1 g2 g3 g4 g5 ++ s5).
  { unfold bracketed. rewrite <- !app_assoc. reflexivity. }
  split; [exact E|].
  rewrite !text_run_iff. do 5 (split; [now split|]).
  rewrite !consumed_app, (consumed_eq _ _ _ E) in H.
  injection H as <-. reflexivity.
Qed.

Lemma bracketed_app (t p l c o z : jsstring) :
  bracketed t p l c o ++ z
  = t ++ LBRACKET :: p ++ COLON :: l ++ COMMA :: c
      ++ RBRACKET :: LBRACKET :: o ++ RBRACKET :: z.
Proof. unfold bracketed. rewrite <- !app_assoc. reflexivity. Qed.

Lemma Lang_bracketed (t p l c o : jsstring) :
  text_run t = true -> text_run p = true -> text_run l = true ->
  text_run c = true -> text_run o = true ->
  Lang minifyRe (bracketed t p l c o).
Proof.
  rewrite !text_run_iff. intros Ht Hp Hl Hc Ho.
  rewrite <- (app_nil_r (bracketed t p l c o)), bracketed_app.
  rewrite minifyRe_unfold. unfold after1, after2, after3, after4. cbn [Lang].
  exists t, (LBRACKET :: p ++ COLON :: l ++ COMMA :: c
               ++ RBRACKET :: LBRACKET :: o ++ [RBRACKET]).
  split; [reflexivity|]. split; [exact Ht|].
  exists [LBRACKET], (p ++ COLON :: l ++ COMMA :: c ++ RBRACKET :: LBRACKET :: o ++ [RBRACKET]).
  split; [reflexivity|]. split; [exists LBRACKET; now split|].
  exists p, (COLON :: l ++ COMMA :: c ++ RBRACKET :: LBRACKET :: o ++ [RBRACKET]).
  split; [reflexivity|]. split; [exact Hp|].
  exists [COLON], (l ++ COMMA :: c ++ RBRACKET :: LBRACKET :: o ++ [RBRACKET]).
  split; [reflexivity|]. split; [exists COLON; now split|].
  exists l, (COMMA :: c ++ RBRACKET :: LBRACKET :: o ++ [RBRACKET]).
  split; [reflexivity|]. split; [exact Hl|].
  exists [COMMA], (c ++ RBRACKET :: LBRACKET :: o ++ [RBRACKET]).
  split; [reflexivity|]. split; [exists COMMA; now split|].
  exists c, (RBRACKET :: LBRACKET :: o ++ [RBRACKET]).
  split; [reflexivity|]. split; [exact Hc|].
  exists [RBRACKET], (LBRACKET :: o ++ [RBRACKET]).
  split; [reflexivity|]. split; [exists RBRACKET; now split|].
  exists [LBRACKET], (o ++ [RBRACKET]).
  split; [reflexivity|]. split; [exists LBRACKET; now split|].
  exists o, [RBRACKET].
  split; [reflexivity|]. split; [exact Ho|]. exists RBRACKET. now split.
Qed.

(** Wherever the pattern can be read into [s], an attempt there succeeds. *)
Lemma match_here_complete (t p l c o rest : jsstring) :
  text_run t = true -> text_run p = true -> text_run l = true ->
  text_run c = true -> text_run o = true ->
  match_here minifyRe (bracketed t p l c o ++ rest) <> None.
Proof.
  intros Ht Hp Hl Hc Ho H. unfold match_here in H.
  eapply matcher_none with (c' := []) in H;
    [discriminate H | intros v c1 c2; discriminate | reflexivity |].
  apply Lang_bracketed; assumption.
Qed.

Lemma exec_complete (s : jsstring) : MatchesPattern s -> exec minifyRe s <> None.
Proof.
  intros (t & p & l & c & o & before & after & -> & Ht & Hp & Hl & Hc & Ho) H.
  apply (match_here_complete t p l c o after Ht Hp Hl Hc Ho).
  apply (exec_none _ _ H before). reflexivity.
Qed.

Lemma exec_sound_pattern (s : jsstring) (caps : Caps) :
  exec minifyRe s = Some caps ->
  exists whole text path line column other,
    Decomposes s text path line column other /\
    caps = [Some whole; Some text; Some path; Some line; Some column].
Proof.
  intros H. apply exec_sound in H as (b & rest & -> & H).
  apply match_here_sound in H as (t & p & l & c & o & r & -> & Ht & Hp & Hl & Hc & Ho & ->).
  exists (bracketed t p l c o), t, p, l, c, o. split; [|reflexivity].
  exists b, r. repeat split; assumption.
Qed.

(** *** Reading the pattern in one way only *)

Lemma lacks_app (c : N) (u v : jsstring) :
  lacks c (u ++ v) = lacks c u && lacks c v.
Proof. apply forallb_app. Qed.

Lemma app_skip (c : N) (P X Y Z : jsstring) :
  lacks c P = true -> P ++ X = Y ++ c :: Z ->
  exists Y', Y = P ++ Y' /\ X = Y' ++ c :: Z.
Proof.
  revert Y. induction P as [|p P IH]; intros Y HP E.
  - exists Y. split; [reflexivity|exact E].
  - cbn [lacks forallb] in HP. apply andb_true_iff in HP as [Hp HP].
    destruct Y as [|y Y]; cbn [app] in E; injection E as -> E.
    + rewrite N.eqb_refl in Hp. discriminate.
    + destruct (IH Y HP E) as (Y' & -> & ->). exists Y'. split; reflexivity.
Qed.

(** On a line without an opening bracket, no text run ends at one. *)
Lemma no_bracket_after (L P Y B : jsstring) :
  lacks LBRACKET L = true -> starts_new_line P = true ->
  L ++ P = Y ++ LBRACKET :: B ->
  forallb (atom_ok Dot) Y = true -> False.
Proof.
  revert Y. induction L as [|l L IH]; intros Y HL HP E HY.
  - cbn [app] in E. subst P. destruct Y as [|y Y]; cbn in HP; [discriminate|].
    cbn [forallb atom_ok] in HY. rewrite HP in HY. discriminate.
  - cbn [lacks forallb] in HL. apply andb_true_iff in HL as [Hl HL].
    destruct Y as [|y Y]; cbn [app] in E; injection E as -> E.
    + rewrite N.eqb_refl in Hl. discriminate.
    + cbn [forallb] in HY. apply andb_true_iff in HY as [_ HY].
      apply (IH Y HL HP E HY).
Qed.

Section Cuts.
Variables (path line column other tail rest : jsstring).
Hypothesis Hrest : starts_new_line rest = true.
Hypothesis Hother : lacks LBRACKET other = true.
Hypothesis Htail : lacks LBRACKET tail = true.

Let R4 : jsstring := RBRACKET :: LBRACKET :: other ++ RBRACKET :: tail ++ rest.
Let R3 : jsstring := COMMA :: column ++ R4.
Let R2 : jsstring := COLON :: line ++ R3.
Let R1 : jsstring := LBRACKET :: path ++ R2.

Lemma cut4 (c : N) (Y A B : jsstring) :
  isLineTerminator c = false ->
  R4 = Y ++ c :: A ++ LBRACKET :: B ->
  forallb (atom_ok Dot) Y = true -> forallb (atom_ok Dot) A = true ->
  Y = [] /\ c = RBRACKET /\ A = [].
Proof.
  intros Hc E HY HA. unfold R4 in E.
  assert (HL : lacks LBRACKET (other ++ RBRACKET :: tail) = true).
  { rewrite lacks_app, Hother. cbn [lacks forallb andb]. exact Htail. }
  change (RBRACKET :: LBRACKET :: other ++ RBRACKET :: tail ++ rest)
    with (RBRACKET :: LBRACKET :: other ++ (RBRACKET :: tail) ++ rest) in E.
  rewrite (app_assoc other) in E.
  destruct Y as [|y1 [|y2 Y]]; cbn [app] in E.
  - injection E as <- E. destruct A as [|a A]; [now repeat split|].
    cbn [app] in E. injection E as <- E. cbn [forallb] in HA.
    apply andb_true_iff in HA as [_ HA].
    destruct (no_bracket_after _ _ _ _ HL Hrest E HA).
  - injection E as <- <- E. destruct (no_bracket_after _ _ _ _ HL Hrest E HA).
  - injection E as <- <- E.
    cbn [forallb] in HY. apply andb_true_iff in HY as [_ HY].
    apply andb_true_iff in HY as [_ HY].
    change (Y ++ c :: A ++ LBRACKET :: B) with (Y ++ (c :: A) ++ LBRACKET :: B) in E.
    rewrite app_assoc in E.
    exfalso. apply (no_bracket_after _ _ _ _ HL Hrest E).
    rewrite forallb_app, HY. cbn [forallb atom_ok andb]. rewrite Hc. exact HA.
Qed.

Lemma cut3 (c : N) (Y A B : jsstring) :
  isLineTerminator c = false -> c <> RBRACKET -> lacks c column = true ->
  R3 = Y ++ c :: A ++ LBRACKET :: B ->
  forallb (atom_ok Dot) Y = true -> forallb (atom_ok Dot) A = true ->
  Y = [].
Proof.
  intros Hc Hne Hcol E HY HA. destruct Y as [|y Y]; [reflexivity|].
  unfold R3 in E. cbn [app] in E. injection E as <- E.
  cbn [forallb] in HY. apply andb_true_iff in HY as [_ HY].
  apply app_skip in E as (Y' & -> & E); [|exact Hcol].
  rewrite forallb_app in HY. apply andb_true_iff in HY as [_ HY].
  destruct (cut4 c Y' A B Hc E HY HA) as (_ & -> & _). contradiction.
Qed.

Lemma cut2 (c : N) (Y A B : jsstring) :
  isLineTerminator c = false -> c <> RBRACKET -> c <> COMMA ->
  lacks c line = true -> lacks c column = true ->
  R2 = Y ++ c :: A ++ LBRACKET :: B ->
  forallb (atom_ok Dot) Y = true -> forallb (atom_ok Dot) A = true ->
  Y = [].
Proof.
  intros Hc Hne Hne' Hline Hcol E HY HA. destruct Y as [|y Y]; [reflexivity|].
  unfold R2 in E. cbn [app] in E. injection E as <- E.
  cbn [forallb] in HY. apply andb_true_iff in HY as [_ HY].
  apply app_skip in E as (Y' & -> & E); [|exact Hline].
  rewrite forallb_app in HY. apply andb_true_iff in HY as [_ HY].
  pose proof (cut3 c Y' A B Hc Hne Hcol E HY HA) as ->.
  unfold R3 in E. cbn [app] in E. injection E as <-. contradiction.
Qed.

Lemma cut1 (Y A B : jsstring) :
  lacks LBRACKET path = true -> lacks LBRACKET line = true ->
  lacks LBRACKET column = true ->
  R1 = Y ++ LBRACKET :: A ++ LBRACKET :: B ->
  forallb (atom_ok Dot) Y = true -> forallb (atom_ok Dot) A = true ->
  Y = [].
Proof.
  intros Hpath Hline Hcol E HY HA. destruct Y as [|y Y]; [reflexivity|].
  unfold R1 in E. cbn [app] in E. injection E as <- E.
  cbn [forallb] in HY. apply andb_true_iff in HY as [_ HY].
  apply app_skip in E as (Y' & -> & E); [|exact Hpath].
  rewrite forallb_app in HY. apply andb_true_iff in HY as [_ HY].
  assert (Y' = []) as ->.
  { apply (cut2 LBRACKET Y' A B); try assumption; try reflexivity; discriminate. }
  unfold R2 in E. cbn [app] in E. discriminate E.
Qed.

End Cuts.

(** Every word of the pattern's remainders runs, within one line, up to
    an opening bracket. *)
Lemma shape_after4 (w : jsstring) :
  Lang after4 w -> exists B, w = RBRACKET :: [] ++ LBRACKET :: B.
Proof.
  unfold after4. cbn [Lang].
  intros (u1 & w1 & -> & (c1 & -> & C1) & u2 & w2 & -> & (c2 & -> & C2) & _).
  cbn [atom_ok] in C1, C2. apply N.eqb_eq in C1, C2. subst.
  eexists. reflexivity.
Qed.

Lemma shape_group (i : nat) (T : Re) (c : N) (w : jsstring) :
  isLineTerminator c = false ->
  (forall w', Lang T w' ->
     exists A B, w' = c :: A ++ LBRACKET :: B /\ forallb (atom_ok Dot) A = true) ->
  Lang (Cat (Grp i (Rep1 Dot)) T) w ->
  exists A B, w = A ++ LBRACKET :: B /\ forallb (atom_ok Dot) A = true.
Proof.
  intros Hc HT. cbn [Lang]. intros (g & w' & -> & [_ Hg] & L).
  destruct (HT w' L) as (A & B & -> & HA).
  exists (g ++ c :: A), B. rewrite <- app_assoc. split; [reflexivity|].
  rewrite forallb_app, Hg. cbn [forallb atom_ok andb]. rewrite Hc. exact HA.
Qed.

Lemma shape_literal (c : N) (T : Re) (w : jsstring) :
  (forall w', Lang T w' ->
     exists A B, w' = A ++ LBRACKET :: B /\ forallb (atom_ok Dot) A = true) ->
  Lang (Cat (One (Lit c)) T) w ->
  exists A B, w = c :: A ++ LBRACKET :: B /\ forallb (atom_ok Dot) A = true.
Proof.
  intros HT. cbn [Lang]. intros (u & w' & -> & (d & -> & D) & L).
  cbn [atom_ok] in D. apply N.eqb_eq in D. subst d.
  destruct (HT w' L) as (A & B & -> & HA). exists A, B. split; [reflexivity|exact HA].
Qed.

Lemma shape_after4' (w : jsstring) :
  Lang after4 w ->
  exists A B, w = RBRACKET :: A ++ LBRACKET :: B /\ forallb (atom_ok Dot) A = true.
Proof.
  intros L. destruct (shape_after4 w L) as (B & ->). exists [], B. split; reflexivity.
Qed.

Lemma shape_after3 (w : jsstring) :
  Lang after3 w ->
  exists A B, w = COMMA :: A ++ LBRACKET :: B /\ forallb (atom_ok Dot) A = true.
Proof.
  apply shape_literal. intros w'.
  apply (shape_group 4 after4 RBRACKET); [reflexivity|apply shape_after4'].
Qed.

Lemma shape_after2 (w : jsstring) :
  Lang after2 w ->
  exists A B, w = COLON :: A ++ LBRACKET :: B /\ forallb (atom_ok Dot) A = true.
Proof.
  apply shape_literal. intros w'.
  apply (shape_group 3 after3 COMMA); [reflexivity|apply shape_after3].
Qed.

Lemma shape_after1 (w : jsstring) :
  Lang after1 w ->
  exists A B, w = LBRACKET :: A ++ LBRACKET :: B /\ forallb (atom_ok Dot) A = true.
Proof.
  apply shape_literal. intros w'.
  apply (shape_group 2 after2 COLON); [reflexivity|apply shape_after2].
Qed.

(** A greedy group takes the run [u] when the rest of the pattern cannot
    be read after any longer run. *)
Lemma group_longest (i : nat) (T : Re) (c : N) (u R : jsstring) (cs : Caps)
    (k : jsstring -> Caps -> option Caps) (res : Caps) :
  text_run u = true ->
  (forall w, Lang T w ->
     exists A B, w = c :: A ++ LBRACKET :: B /\ forallb (atom_ok Dot) A = true) ->
  (forall Y A B, R = Y ++ c :: A ++ LBRACKET :: B ->
     forallb (atom_ok Dot) Y = true -> forallb (atom_ok Dot) A = true -> Y = []) ->
  matcher T R (<[i := Some u]> cs) k = Some res ->
  matcher (Cat (Grp i (Rep1 Dot)) T) (u ++ R) cs k = Some res.
Proof.
  intros Hu Hshape Hcut Hk. apply text_run_iff in Hu as [Hne Hu].
  cbn [matcher]. apply rep1_longest; [exact Hne|exact Hu| |].
  - intros u' v' -> Hne' Hu'.
    destruct (matcher T v' _ k) eqn:E; [|reflexivity].
    apply matcher_sound in E as (w & rest0 & c' & -> & L & _).
    destruct (Hshape w L) as (A & B & -> & HA).
    destruct Hne'. apply (Hcut u' A (B ++ rest0)); [|exact Hu'|exact HA].
    cbn [app]. rewrite <- app_assoc. reflexivity.
  - rewrite consumed_app. exact Hk.
Qed.

Lemma matcher_literal (c : N) (T : Re) (s : jsstring) (cs : Caps)
    (k : jsstring -> Caps -> option Caps) :
  matcher (Cat (One (Lit c)) T) (c :: s) cs k = matcher T s cs k.
Proof. cbn [matcher atom_ok]. rewrite N.eqb_refl. reflexivity. Qed.

(** The pattern read at the start of a stack that can be read in one way
    only captures exactly the pieces of that reading. *)
Lemma match_here_exact (text path line column other tail rest : jsstring) :
  Unambiguous [] text path line column other tail rest ->
  exists whole,
    match_here minifyRe (bracketed text path line column other ++ tail ++ rest)
    = Some [Some whole; Some text; Some path; Some line; Some column].
Proof.
  intros [_ Htext [Hpath Bpath] (Hline & Bline & Cline)
            (Hcol & Bcol & Ccol & Mcol) [Hother Bother] [Btail Hrest]].
  rewrite bracketed_app. unfold match_here. change (ngroups minifyRe) with 4.
  cbn [replicate]. rewrite minifyRe_unfold.
  set (S0 := text ++ _).
  set (kfin := fun (s' : jsstring) (c : Caps) => Some (<[0 := Some (consumed S0 s')]> c)).
  subst S0.
  set (c4 := [None; Some text; Some path; Some line; Some column]).
  assert (H4 : exists whole,
             matcher after4 (RBRACKET :: LBRACKET :: other ++ RBRACKET :: tail ++ rest)
               c4 kfin = Some (<[0 := Some whole]> c4)).
  { unfold after4. rewrite !matcher_literal. cbn [matcher].
    apply text_run_iff in Hother as [Nother Aother].
    destruct (rep1 Dot _ _) as [r|] eqn:E.
    - apply rep1_sound in E as (u & v & _ & _ & _ & Hk). literal Hk.
      unfold kfin in Hk. injection Hk as <-. eexists. reflexivity.
    - apply rep1_none with (u := other) (v := RBRACKET :: tail ++ rest) in E;
        [|reflexivity|exact Nother|exact Aother].
      cbn in E. discriminate E. }
  destruct H4 as [whole H4]. exists whole.
  change (Some [Some whole; Some text; Some path; Some line; Some column])
    with (Some (<[0 := Some whole]> c4)).
  apply (group_longest 1 after1 LBRACKET); [exact Htext|apply shape_after1| |].
  { intros Y A B. apply (cut1 path line column other tail rest); assumption. }
  unfold after1. rewrite matcher_literal.
  apply (group_longest 2 after2 COLON); [exact Hpath|apply shape_after2| |].
  { intros Y A B.
    apply (cut2 line column other tail rest); try assumption; try reflexivity; discriminate. }
  unfold after2. rewrite matcher_literal.
  apply (group_longest 3 after3 COMMA); [exact Hline|apply shape_after3| |].
  { intros Y A B.
    apply (cut3 column other tail rest); try assumption; try reflexivity; discriminate. }
  unfold after3. rewrite matcher_literal.
  apply (group_longest 4 after4 RBRACKET); [exact Hcol|apply shape_after4'| |].
  { intros Y A B E HY HA.
    apply (cut4 other tail rest Hrest Bother Btail RBRACKET Y A B eq_refl E HY HA). }
  exact H4.
Qed.

(** Lines that end before the pattern and hold no opening bracket cannot
    start a match. *)
Lemma no_match_before (before b1 b2 S : jsstring) :
  lacks LBRACKET before = true -> ends_line before = true ->
  before = b1 ++ b2 -> b2 <> [] ->
  match_here minifyRe (b2 ++ S) = None.
Proof.
  intros HL HE -> Hb2.
  destruct (match_here minifyRe (b2 ++ S)) as [caps|] eqn:E; [|reflexivity].
  apply match_here_sound in E as (t & p & l & c & o & r & E & Ht & _).
  rewrite bracketed_app in E. apply text_run_iff in Ht as [_ Ht].
  unfold ends_line in HE. rewrite last_app in HE.
  destruct (last b2) as [x|] eqn:Lx; [|apply last_None in Lx; contradiction].
  apply last_Some in Lx as [b2' ->].
  rewrite lacks_app in HL. apply andb_true_iff in HL as [_ HL].
  rewrite lacks_app in HL. apply andb_true_iff in HL as [HL _].
  rewrite <- app_assoc in E. cbn [app] in E.
  destruct (no_bracket_after b2' (x :: S) t _ HL HE E Ht).
Qed.

(** [exec] on a stack that can be read in one way only. *)
Lemma exec_exact (before text path line column other tail rest : jsstring) :
  Unambiguous before text path line column other tail rest ->
  exists whole,
    exec minifyRe (before ++ bracketed text path line column other ++ tail ++ rest)
    = Some [Some whole; Some text; Some path; Some line; Some column].
Proof.
  intros U.
  destruct (match_here_exact text path line column other tail rest) as [whole H].
  { destruct U. constructor; try assumption. split; reflexivity. }
  exists whole. apply exec_leftmost; [|exact H].
  intros b1 b2 E Hb2. destruct U as [[HL HE] _ _ _ _ _ _].
  apply (no_match_before before b1 b2 _ HL HE E Hb2).
Qed.

(** ** What [printBuildError] prints *)

Lemma isPrefix_app (p r : jsstring) : isPrefix p (p ++ r) = true.
Proof. induction p as [|c p IH]; cbn; [reflexivity|]. rewrite N.eqb_refl. exact IH. Qed.

Lemma indexOfFrom_contains (needle a b : jsstring) (i : Z) :
  (i <= indexOfFrom needle (a ++ needle ++ b) i)%Z.
Proof.
  revert i. induction a as [|x a IH]; intros i.
  - cbn [app]. destruct (needle ++ b) eqn:E; cbn [indexOfFrom];
      rewrite <- E, isPrefix_app; lia.
  - cbn [app indexOfFrom]. destruct (isPrefix needle (x :: a ++ needle ++ b)); [lia|].
    specialize (IH (i + 1)%Z). lia.
Qed.

Lemma has_marker_contains (message : jsstring) :
  Contains message marker -> has_marker (VStr message) = true.
Proof.
  intros (a & b & ->). unfold has_marker, indexOf.
  pose proof (indexOfFrom_contains marker a b 0) as H.
  destruct (Z.eqb_spec (indexOfFrom marker (a ++ marker ++ b) 0) (-1)); [lia|reflexivity].
Qed.

Lemma exec_empty : exec minifyRe [] = None.
Proof. reflexivity. Qed.

(** The branch taken for a minifier error with a stack. *)
Lemma printBuildError_minifier (e : ErrorObj) (message stack : jsstring) (w : World) :
  err_message e = Some message -> Contains message marker ->
  err_stack e = Some stack -> stack <> [] ->
  printBuildError (VErr e) w =
    (Ret tt, w,
     match exec minifyRe stack with
     | Some matched =>
         [ ConsoleLog
             [ AText (plain (js "Failed to minify the code from this file: " ++ [LF; LF]));
               AText (chalk yellow
                        (plain (location (cap matched 2) (cap matched 3) (cap matched 4))));
               AText (plain [LF]) ];
           ConsoleLog [] ]
     | None => unparsed (VErr e)
     end).
Proof.
  intros Hm Hc Hs Hne. unfold printBuildError.
  cbn [not_nullish get_message get_stack]. unfold bind at 1 2 3. cbn [ret].
  rewrite Hm, Hs. cbn [of_prop]. rewrite (has_marker_contains _ Hc).
  destruct stack as [|ch stack]; [contradiction|]. cbn [truthy has_length andb toString].
  unfold try_catch. destruct (exec minifyRe (ch :: stack)); reflexivity.
Qed.

Lemma location_strings (path line column : jsstring) :
  minify_report (location (VStr path) (VStr line) (VStr column))
  = located path line column.
Proof.
  unfold located, location, strict_neq_str. cbn [toString].
  change (js "0") with [48%N]. change (js ":") with [COLON].
  destruct (bool_decide (column = [48%N])); reflexivity.
Qed.

(** C4. For an error whose message carries the minifier marker and
    whose stack is not empty: [printBuildError] returns; when the stack can
    be read as the pattern in one way only, it prints exactly the path, line
    and column of that reading; whenever the stack can be read as the
    pattern at all, it prints the path, line and column of one such reading
    (the one the greedy search settles on); and when the stack cannot be
    read as the pattern, it prints the unparsed error.  No value of
    [Val] makes it throw. *)
Theorem minifier_error_location (e : ErrorObj) (message stack : jsstring) (w : World) :
  err_message e = Some message -> Contains message marker ->
  err_stack e = Some stack -> stack <> [] ->
  outcome_of (printBuildError (VErr e) w) = Ret tt /\
  (forall before text path line column other tail rest,
     stack = before ++ bracketed text path line column other ++ tail ++ rest ->
     Unambiguous before text path line column other tail rest ->
     events_of (printBuildError (VErr e) w) = located path line column) /\
  (MatchesPattern stack ->
   exists text path line column other,
     Decomposes stack text path line column other /\
     events_of (printBuildError (VErr e) w) = located path line column) /\
  (~ MatchesPattern stack ->
   events_of (printBuildError (VErr e) w) = unparsed (VErr e)) /\
  (forall (err : Val) (w' : World), outcome_of (printBuildError err w') = Ret tt).
Proof.
  intros Hm Hc Hs Hne.
  rewrite (printBuildError_minifier e message stack w Hm Hc Hs Hne).
  cbn [outcome_of events_of fst snd].
  split; [reflexivity|]. split; [|split; [|split]].
  - intros before text path line column other tail rest -> U.
    destruct (exec_exact _ _ _ _ _ _ _ _ U) as [whole ->].
    apply location_strings.
  - intros M. destruct (exec minifyRe stack) as [caps|] eqn:E;
      [|destruct (exec_complete stack M E)].
    destruct (exec_sound_pattern stack caps E) as (whole & t & p & l & c & o & D & ->).
    exists t, p, l, c, o. split; [exact D|]. apply location_strings.
  - intros N. destruct (exec minifyRe stack) as [caps|] eqn:E; [|reflexivity].
    destruct (exec_sound_pattern stack caps E) as (whole & t & p & l & c & o & D & _).
    destruct N. exists t, p, l, c, o. exact D.
  - intros err w'. apply printBuildError_returns.
Qed.

(** C9. When the pattern matches, the location printed is
    [path:line] if the extracted column is the string '0', and
    [path:line:column] for every other column. *)
Theorem column_zero_is_dropped (e : ErrorObj) (message stack : jsstring) (w : World)
    (matched : Caps) (path line column : jsstring) :
  err_message e = Some message -> Contains message marker ->
  err_stack e = Some stack ->
  exec minifyRe stack = Some matched ->
  cap matched 2 = VStr path -> cap matched 3 = VStr line ->
  cap matched 4 = VStr column ->
  (column = js "0" ->
   events_of (printBuildError (VErr e) w)
   = minify_report ([TAB] ++ path ++ [COLON] ++ line)) /\
  (column <> js "0" ->
   events_of (printBuildError (VErr e) w)
   = minify_report ([TAB] ++ path ++ [COLON] ++ line ++ [COLON] ++ column)).
Proof.
  intros Hm Hc Hs E H2 H3 H4.
  assert (Hne : stack <> []) by (intros ->; rewrite exec_empty in E; discriminate).
  assert (X : events_of (printBuildError (VErr e) w) = located path line column).
  { rewrite (printBuildError_minifier e message stack w Hm Hc Hs Hne), E, H2, H3, H4.
    apply location_strings. }
  rewrite X. unfold located. change (js "0") with [48%N]. split; intros Hcol.
  - rewrite bool_decide_eq_true_2 by exact Hcol. rewrite app_nil_r. reflexivity.
  - rewrite bool_decide_eq_false_2 by exact Hcol. reflexivity.
Qed.

(* ------------------------------------------------------------------ *)
(** * Further properties *)

(** ** How a pass is rendered *)

Lemma runCallback_outcomes (err : Val) (stats : Stats) (w : World) :
  truthy err = false ->
  outcomes_of (events_of (runCallback err stats w)) = [classify (messages_of OneShot stats)].
Proof.
  intros T. unfold classify.
  destruct (errors (messages_of OneShot stats)) as [|e es] eqn:He.
  - destruct (warnings (messages_of OneShot stats)) as [|x xs] eqn:Hw.
    + rewrite (runCallback_success _ _ _ T He Hw). reflexivity.
    + rewrite (runCallback_warnings _ _ _ _ _ T He Hw). reflexivity.
  - rewrite (runCallback_errors _ _ _ _ _ T He).
    destruct (printBuildError_total (VErr (newError 127 e)) (touched w)) as [args [E _]].
    rewrite E. reflexivity.
Qed.

Lemma taroDone_outcomes (stats : Stats) (w : World) :
  outcomes_of (events_of (taroDone stats w)) =
    match errors (messages_of Watch stats), warnings (messages_of Watch stats) with
    | [], [] => [Success]
    | _ :: _, [] => [Failure]
    | [], _ :: _ => [WarningsOnly]
    | _ :: _, _ :: _ => [Failure; WarningsOnly]
    end.
Proof.
  rewrite taroDone_run. cbn zeta. unfold messages_of.
  destruct (formatWebpackMessage (toJson stats JsonTrue)) as [[|e es] [|x xs]]; reflexivity.
Qed.

(** X1. The run callback of a one-shot build, when the engine reports no
    error of its own, renders exactly one outcome, whatever the messages
    are: Failure when there is an error, otherwise WarningsOnly when there
    is a warning, otherwise Success. *)
Theorem oneshot_renders_one_outcome (err : Val) (stats : Stats) (w : World) :
  truthy err = false ->
  outcomes_of (events_of (runCallback err stats w)) =
    [ match errors (messages_of OneShot stats), warnings (messages_of OneShot stats) with
      | _ :: _, _ => Failure
      | [], _ :: _ => WarningsOnly
      | [], [] => Success
      end ].
Proof.
  intros T. rewrite (runCallback_outcomes err stats w T). unfold classify.
  destruct (errors (messages_of OneShot stats)), (warnings (messages_of OneShot stats));
    reflexivity.
Qed.

(** X2. Errors take precedence in both modes: the first outcome a pass
    renders is Failure exactly when the compile result has an error. *)
Theorem failure_is_rendered_first (mode : Mode) (stats : Stats) (w : World) :
  head (outcomes_of (events_of (pass mode stats w))) = Some Failure
  <-> errors (messages_of mode stats) <> [].
Proof.
  destruct mode; unfold pass.
  - rewrite taroDone_outcomes.
    destruct (errors (messages_of Watch stats)), (warnings (messages_of Watch stats));
      cbn; split; congruence.
  - rewrite (runCallback_outcomes VNull stats w eq_refl). unfold classify.
    destruct (errors (messages_of OneShot stats)), (warnings (messages_of OneShot stats));
      cbn; split; congruence.
Qed.

(** X3. No pass is silent, and Success is never mixed with another
    outcome: every pass renders at least one outcome; Success is rendered
    exactly when there is neither an error nor a warning, and then it is
    the only outcome; WarningsOnly is rendered exactly when there is a
    warning and, in one-shot mode, no error. *)
Theorem pass_outcomes (mode : Mode) (stats : Stats) (w : World) :
  outcomes_of (events_of (pass mode stats w)) <> [] /\
  (In Success (outcomes_of (events_of (pass mode stats w)))
   <-> errors (messages_of mode stats) = [] /\ warnings (messages_of mode stats) = []) /\
  (In Success (outcomes_of (events_of (pass mode stats w)))
   -> outcomes_of (events_of (pass mode stats w)) = [Success]) /\
  (In WarningsOnly (outcomes_of (events_of (pass mode stats w)))
   <-> warnings (messages_of mode stats) <> []
       /\ (mode = Watch \/ errors (messages_of mode stats) = [])).
Proof.
  destruct mode; unfold pass.
  - rewrite taroDone_outcomes.
    destruct (errors (messages_of Watch stats)), (warnings (messages_of Watch stats));
      cbn; repeat split; try congruence; try tauto; try (intros; intuition congruence).
  - rewrite (runCallback_outcomes VNull stats w eq_refl). unfold classify.
    destruct (errors (messages_of OneShot stats)), (warnings (messages_of OneShot stats));
      cbn; repeat split; try congruence; try tauto; try (intros; intuition congruence).
Qed.

(** ** Which printer [printBuildError] takes *)

Lemma isPrefix_true (p s : jsstring) : isPrefix p s = true -> exists r, s = p ++ r.
Proof.
  revert s. induction p as [|a p IH]; intros s H.
  - exists s. reflexivity.
  - destruct s as [|b s]; cbn [isPrefix] in H; [discriminate|].
    apply andb_true_iff in H as [E H]. apply N.eqb_eq in E. subst b.
    destruct (IH s H) as [r ->]. exists r. reflexivity.
Qed.

Lemma indexOfFrom_found (needle hay : jsstring) (i : Z) :
  indexOfFrom needle hay i <> (-1)%Z \/ (i < 0)%Z -> (0 <= i)%Z ->
  Contains hay needle.
Proof.
  revert i. induction hay as [|x hay IH]; intros i [H|H] Hi; try lia.
  - cbn [indexOfFrom] in H. destruct (isPrefix needle []) eqn:P; [|contradiction].
    apply isPrefix_true in P as [r E]. exists [], r. exact E.
  - cbn [indexOfFrom] in H. destruct (isPrefix needle (x :: hay)) eqn:P.
    + apply isPrefix_true in P as [r E]. exists [], r. exact E.
    + destruct (IH (i + 1)%Z) as (a & b & ->); [now left|lia|].
      exists (x :: a), b. reflexivity.
Qed.

Lemma has_marker_iff (message : jsstring) :
  has_marker (VStr message) = true <-> Contains message marker.
Proof.
  split; [|apply has_marker_contains].
  unfold has_marker, indexOf. intros H.
  destruct (Z.eqb_spec (indexOfFrom marker message 0) (-1)); [discriminate|].
  apply (indexOfFrom_found marker message 0); [now left|lia].
Qed.

(** X4. The minifier printer needs both the marker and a stack.  An error
    with a non-empty message is printed as that message and a newline,
    followed by a blank line, whenever the message does not contain 'from
    UglifyJs' or the stack is missing or empty: also when its stack would
    match the bracket pattern. *)
Theorem ordinary_error_prints_message (e : ErrorObj) (message : jsstring) (w : World) :
  err_message e = Some message -> message <> [] ->
  ~ Contains message marker \/ err_stack e = None \/ err_stack e = Some [] ->
  events_of (printBuildError (VErr e) w) = [log_plain (message ++ [LF]); ConsoleLog []].
Proof.
  intros Hm Hne Hbranch. destruct e as [n m st]. cbn [err_message err_stack] in *. subst m.
  unfold printBuildError. cbn [not_nullish get_message get_stack].
  unfold bind at 1 2 3. cbn [ret of_prop err_message err_stack].
  assert (C : truthy (of_prop st) && has_marker (VStr message) = false).
  { destruct Hbranch as [H | [-> | ->]]; [|reflexivity|reflexivity].
    destruct (has_marker (VStr message)) eqn:M; [|apply andb_false_r].
    apply has_marker_iff in M. contradiction. }
  rewrite C. unfold js_or. destruct message as [|ch message]; [contradiction|].
  reflexivity.
Qed.

(** ** What the one-shot callback prints *)

Lemma join_contains (sep x : jsstring) (l : list jsstring) :
  In x l -> Contains (join sep l) x.
Proof.
  induction l as [|y l IH]; [contradiction|]. intros [-> | H].
  - destruct l as [|z l]; cbn [join].
    + exists [], []. rewrite app_nil_r. reflexivity.
    + exists [], (sep ++ join sep (z :: l)). reflexivity.
  - destruct l as [|z l]; [contradiction|].
    destruct (IH H) as (a & b & E). cbn [join] in *. rewrite E.
    exists (y ++ sep ++ a), b. rewrite <- !app_assoc. reflexivity.
Qed.

(** X5. In one-shot mode no warning is lost: when there is no error, the
    one string printed under the yellow line contains the text of every
    warning of the compile result. *)
Theorem oneshot_shows_every_warning (err : Val) (stats : Stats) (w : World) (x : jsstring) :
  truthy err = false ->
  errors (messages_of OneShot stats) = [] ->
  In x (warnings (messages_of OneShot stats)) ->
  exists text,
    nth_error (events_of (runCallback err stats w)) 1 = Some (log_plain text) /\
    Contains text x.
Proof.
  intros T He Hx.
  destruct (warnings (messages_of OneShot stats)) as [|y ys] eqn:Hw; [contradiction|].
  rewrite (runCallback_warnings _ _ _ _ _ T He Hw).
  exists (join [LF; LF] (y :: ys)). split; [reflexivity|].
  apply join_contains, Hx.
Qed.

Lemma marker_not_empty (e : jsstring) : Contains e marker -> e <> [].
Proof.
  intros (a & b & ->) H. apply app_eq_nil in H as [_ H].
  apply app_eq_nil in H as [H _]. discriminate H.
Qed.

(** X6. In one-shot mode a compile error that carries the minifier marker
    never reaches the plain printer, because the [Error] made of it always
    has a stack ('Error: ', the error, the frames).  After the red line
    the callback prints the location read from that stack when it can be
    read as the bracket pattern, and the unparsed error otherwise. *)
Theorem oneshot_minifier_error (err : Val) (stats : Stats) (w : World)
    (e : jsstring) (es : list jsstring) :
  truthy err = false ->
  errors (messages_of OneShot stats) = e :: es ->
  Contains e marker ->
  (MatchesPattern (js "Error: " ++ e ++ captureFrames 127) ->
   exists text path line column other,
     Decomposes (js "Error: " ++ e ++ captureFrames 127) text path line column other /\
     events_of (runCallback err stats w)
     = line_failed (spinner_ref w) :: located path line column) /\
  (~ MatchesPattern (js "Error: " ++ e ++ captureFrames 127) ->
   events_of (runCallback err stats w)
   = line_failed (spinner_ref w) :: unparsed (VErr (newError 127 e))).
Proof.
  intros T He Hc. rewrite (runCallback_errors _ _ _ _ _ T He).
  pose proof (marker_not_empty e Hc) as Hne.
  assert (Hs : err_stack (newError 127 e) = Some (js "Error: " ++ e ++ captureFrames 127)).
  { unfold newError, errorToString. cbn [err_stack err_name err_message default].
    destruct e as [|ch e]; [contradiction|]. reflexivity. }
  assert (Hs' : js "Error: " ++ e ++ captureFrames 127 <> []) by discriminate.
  rewrite (printBuildError_minifier (newError 127 e) e _ (touched w) eq_refl Hc Hs Hs').
  cbn [events_of snd]. split.
  - intros M. destruct (exec minifyRe _) as [caps|] eqn:E;
      [|destruct (exec_complete _ M E)].
    destruct (exec_sound_pattern _ caps E) as (whole & t & p & l & c & o & D & ->).
    exists t, p, l, c, o. split; [exact D|]. f_equal. apply location_strings.
  - intros N. destruct (exec minifyRe _) as [caps|] eqn:E; [|reflexivity].
    destruct (exec_sound_pattern _ caps E) as (whole & t & p & l & c & o & D & _).
    destruct N. exists t, p, l, c, o. exact D.
Qed.

(** ** Two bracketed pairs on one line *)

Lemma text_run_bracketed (t p l c o z : jsstring) :
  text_run t = true -> text_run p = true -> text_run l = true ->
  text_run c = true -> text_run o = true ->
  forallb (fun ch => negb (isLineTerminator ch)) z = true ->
  text_run (bracketed t p l c o ++ z) = true.
Proof.
  rewrite !text_run_iff. intros [Nt Ht] [_ Hp] [_ Hl] [_ Hc] [_ Ho] Hz.
  rewrite bracketed_app. split.
  - destruct t; [contradiction|discriminate].
  - rewrite forallb_app. cbn [forallb].
    rewrite forallb_app. cbn [forallb].
    rewrite forallb_app. cbn [forallb].
    rewrite forallb_app. cbn [forallb].
    rewrite forallb_app. cbn [forallb].
    rewrite Ht, Hp, Hl, Hc, Ho. exact Hz.
Qed.

(** X7. When the line of the complaint carries two bracketed pairs, both
    are readings of the stack, and the location printed is that of the
    later pair: the first group of the pattern is greedy. *)
Theorem later_bracketed_pair_is_reported (e : ErrorObj) (message : jsstring) (w : World)
    (t1 p1 l1 c1 o1 t2 p2 l2 c2 o2 tail rest : jsstring) :
  err_message e = Some message -> Contains message marker ->
  err_stack e
  = Some (bracketed (bracketed t1 p1 l1 c1 o1 ++ t2) p2 l2 c2 o2 ++ tail ++ rest) ->
  text_run t1 = true -> text_run p1 = true -> text_run l1 = true ->
  text_run c1 = true -> text_run o1 = true ->
  forallb (fun ch => negb (isLineTerminator ch)) t2 = true ->
  Unambiguous [] (bracketed t1 p1 l1 c1 o1 ++ t2) p2 l2 c2 o2 tail rest ->
  Decomposes (bracketed (bracketed t1 p1 l1 c1 o1 ++ t2) p2 l2 c2 o2 ++ tail ++ rest)
    t1 p1 l1 c1 o1 /\
  events_of (printBuildError (VErr e) w) = located p2 l2 c2.
Proof.
  intros Hm Hc Hs Ht1 Hp1 Hl1 Hc1 Ho1 Ht2 U. split.
  - exists [], (t2 ++ [LBRACKET] ++ p2 ++ [COLON] ++ l2 ++ [COMMA] ++ c2
                  ++ [RBRACKET; LBRACKET] ++ o2 ++ [RBRACKET] ++ tail ++ rest).
    split; [|repeat split; assumption].
    cbn [app]. unfold bracketed at 1. rewrite <- !app_assoc. reflexivity.
  - assert (Hne : bracketed (bracketed t1 p1 l1 c1 o1 ++ t2) p2 l2 c2 o2 ++ tail ++ rest <> []).
    { rewrite bracketed_app, bracketed_app. apply text_run_iff in Ht1 as [N _].
      destruct t1; [contradiction|discriminate]. }
    rewrite (printBuildError_minifier e message _ w Hm Hc Hs Hne).
    destruct (exec_exact _ _ _ _ _ _ _ _ U) as [whole E]. cbn [app] in E.
    rewrite E. apply location_strings.
Qed.

(** ** What a process can do, operation by operation *)

Lemma spinner_touched (w : World) : spinner (touched w) = Some (spinner_ref w).
Proof. destruct w as [[r|] os f]; reflexivity. Qed.

Lemma spinner_ref_relabelled (w : World) : spinner_ref (relabelled w) = spinner_ref w.
Proof. unfold spinner_ref at 1, relabelled. cbn [spinner]. rewrite spinner_touched. reflexivity. Qed.

Lemma run_op_world (op : Op) (w : World) :
  world_of (run_op op w) = w
  \/ world_of (run_op op w) = touched w
  \/ world_of (run_op op w) = relabelled w
  \/ world_of (run_op op w) = touched (mkWorld (spinner w) (oras w) false).
Proof.
  destruct op as [[|] | | err | | stats | urls | | err stats | | urls err];
    cbn [run_op runner].
  - rewrite buildDev_run. auto.
  - rewrite buildProd_run. auto.
  - unfold bind. rewrite getServeSpinner_run. auto.
  - rewrite printBuildError_world. auto.
  - rewrite taroInvalid_run. auto.
  - rewrite taroDone_run. auto.
  - rewrite taroDoneFirst_run. destruct (isFirst w); auto.
  - rewrite buildProd_run. auto.
  - destruct (runCallback_run err stats w) as (w' & evs & E & [-> | ->] & _); rewrite E; auto.
  - rewrite buildDev_run. auto.
  - rewrite listenCallback_run. auto.
Qed.

Lemma run_op_spinner_ref (op : Op) (w : World) :
  spinner_ref (world_of (run_op op w)) = spinner_ref w.
Proof.
  destruct (run_op_world op w) as [-> | [-> | [-> | ->]]].
  - reflexivity.
  - apply spinner_ref_touched.
  - apply spinner_ref_relabelled.
  - rewrite spinner_ref_touched. reflexivity.
Qed.

Lemma run_op_allowed (op : Op) (w : World) :
  Forall (event_allowed op (spinner_ref w)) (events_of (run_op op w)).
Proof.
  destruct op as [[|] | | err | | stats | urls | | err stats | | urls err];
    cbn [run_op runner].
  - rewrite buildDev_run. repeat constructor.
  - rewrite buildProd_run. repeat constructor.
  - unfold bind. rewrite getServeSpinner_run. constructor.
  - destruct (printBuildError_total err w) as [args [E _]]. rewrite E. repeat constructor.
  - rewrite taroInvalid_run. repeat constructor.
  - rewrite taroDone_run. cbn zeta.
    destruct (formatWebpackMessage (toJson stats JsonTrue)) as [[|e es] [|x xs]];
      repeat constructor.
  - rewrite taroDoneFirst_run. destruct (isFirst w); repeat constructor.
  - rewrite buildProd_run. repeat constructor.
  - destruct (truthy err) eqn:T.
    + unfold runCallback. rewrite T.
      destruct (printBuildError_total err w) as [args [E _]]. rewrite E. repeat constructor.
    + destruct (errors (messages_of OneShot stats)) as [|e es] eqn:He.
      * destruct (warnings (messages_of OneShot stats)) as [|x xs] eqn:Hw.
        -- rewrite (runCallback_success _ _ _ T He Hw). repeat constructor.
           cbn [event_allowed is_clean_run]. rewrite T, He, Hw. reflexivity.
        -- rewrite (runCallback_warnings _ _ _ _ _ T He Hw). repeat constructor.
      * rewrite (runCallback_errors _ _ _ _ _ T He).
        destruct (printBuildError_total (VErr (newError 127 e)) (touched w)) as [args [E _]].
        rewrite E. repeat constructor.
  - rewrite buildDev_run. repeat constructor.
  - rewrite listenCallback_run. destruct (truthy err) eqn:T; repeat constructor.
    exact T.
Qed.

(** X8. All status output of a process goes through one spinner
    instance: whatever operations run from whatever state, and in whatever
    order, every start, render, clear and persisted line in the output
    names the same instance, the one [getServeSpinner] yields in the
    starting state. *)
Theorem one_indicator_in_output (ops : list Op) (w : World) :
  Forall (fun e => forall r, spinner_of e = Some r -> r = spinner_ref w)
         (snd (run_ops ops w)).
Proof.
  revert w. induction ops as [|op ops IH]; intros w; cbn [run_ops snd]; [constructor|].
  apply Forall_app. split.
  - eapply Forall_impl; [apply run_op_allowed|].
    intros e A r Hr. destruct e; cbn in Hr, A; try discriminate; congruence.
  - specialize (IH (world_of (run_op op w))). rewrite run_op_spinner_ref in IH. exact IH.
Qed.

Lemma allowed_no_opn (op : Op) (r : nat) (evs : list Event) :
  Forall (event_allowed op r) evs -> is_clean_listen op = false -> opens evs = 0.
Proof.
  intros F C. unfold opens. induction F as [|e evs A _ IH]; [reflexivity|].
  cbn [List.filter]. destruct e; cbn [is_opn]; try exact IH.
  exfalso. destruct op; cbn in A, C; try contradiction.
  destruct A as [T _]. rewrite T in C. discriminate.
Qed.

Lemma allowed_no_summary (op : Op) (r : nat) (evs : list Event) :
  Forall (event_allowed op r) evs -> is_clean_run op = false -> summaries evs = 0.
Proof.
  intros F C. unfold summaries. induction F as [|e evs A _ IH]; [reflexivity|].
  cbn [List.filter]. destruct e; cbn [is_stdout_write]; try exact IH.
  cbn in A. congruence.
Qed.

Lemma opens_app (a b : list Event) : opens (a ++ b) = opens a + opens b.
Proof. unfold opens. rewrite List.filter_app, length_app. reflexivity. Qed.

Lemma summaries_app (a b : list Event) : summaries (a ++ b) = summaries a + summaries b.
Proof. unfold summaries. rewrite List.filter_app, length_app. reflexivity. Qed.

(** X9. The browser is opened by the [server.listen] callback and by
    nothing else: over any sequence of operations, the number of windows
    opened is the number of listen callbacks that were handed no error. *)
Theorem browser_opens_once_per_listen (ops : list Op) (w : World) :
  opens (snd (run_ops ops w)) = length (List.filter is_clean_listen ops).
Proof.
  revert w. induction ops as [|op ops IH]; intros w; cbn [run_ops snd List.filter];
    [reflexivity|].
  rewrite opens_app, IH. destruct (is_clean_listen op) eqn:C.
  - destruct op; try discriminate C. cbn [is_clean_listen] in C.
    cbn [run_op]. rewrite listenCallback_run.
    destruct (truthy err); [discriminate C|]. reflexivity.
  - rewrite (allowed_no_opn op _ _ (run_op_allowed op w) C). reflexivity.
Qed.

(** X10. The stats summary is written to standard output by a run
    callback without engine error on a result without messages, once, and
    by nothing else: never in watch mode, never after an error or a
    warning. *)
Theorem summary_once_per_clean_run (ops : list Op) (w : World) :
  summaries (snd (run_ops ops w)) = length (List.filter is_clean_run ops).
Proof.
  revert w. induction ops as [|op ops IH]; intros w; cbn [run_ops snd List.filter];
    [reflexivity|].
  rewrite summaries_app, IH. destruct (is_clean_run op) eqn:C.
  - destruct op; try discriminate C. cbn [is_clean_run] in C.
    apply andb_true_iff in C as [C Hw]. apply andb_true_iff in C as [T He].
    apply negb_true_iff in T. cbn [run_op].
    destruct (errors (messages_of OneShot stats)) eqn:He'; [|discriminate He].
    destruct (warnings (messages_of OneShot stats)) eqn:Hw'; [|discriminate Hw].
    rewrite (runCallback_success _ _ _ T He' Hw'). reflexivity.
  - rewrite (allowed_no_summary op _ _ (run_op_allowed op w) C). reflexivity.
Qed.

(** ** The label of the spinner *)

Lemma known_label_touched (w : World) :
  Forall known_label (oras w) -> Forall known_label (oras (touched w)).
Proof.
  destruct w as [[r|] os f]; cbn; [exact id|].
  intros H. apply Forall_app. split; [exact H|]. constructor; [now left|constructor].
Qed.

Lemma known_label_relabelled (w : World) :
  Forall known_label (oras w) -> Forall known_label (oras (relabelled w)).
Proof.
  intros H. apply known_label_touched in H. unfold relabelled. cbn [oras].
  apply Forall_insert; [exact H|]. now right.
Qed.

Lemma run_ops_known_label (ops : list Op) (w : World) :
  Forall known_label (oras w) -> Forall known_label (oras (fst (run_ops ops w))).
Proof.
  revert w. induction ops as [|op ops IH]; intros w H; cbn [run_ops fst]; [exact H|].
  apply IH. destruct (run_op_world op w) as [-> | [-> | [-> | ->]]].
  - exact H.
  - apply known_label_touched, H.
  - apply known_label_relabelled, H.
  - apply (known_label_touched (mkWorld (spinner w) (oras w) false)), H.
Qed.

Lemma relabelled_oras (w : World) :
  one_spinner w -> oras (relabelled w) = [mkOra (js "Compiling...")].
Proof.
  destruct w as [[r|] os f]; unfold one_spinner, relabelled; cbn.
  - intros [-> L]. destruct os as [|o [|o' os]]; try discriminate L. reflexivity.
  - intros ->. reflexivity.
Qed.

(** X11. The spinner only ever carries one of two labels, the one it is
    created with and 'Compiling...'; and in any state a process can reach,
    starting a build in either mode, or a file change in watch mode, leaves
    exactly one spinner, labelled 'Compiling...' (creating it when no
    earlier call has). *)
Theorem spinner_label (ops : list Op) (isWatch : bool) :
  Forall known_label (oras (fst (run_ops ops initial))) /\
  oras (world_of (runner isWatch (fst (run_ops ops initial))))
  = [mkOra (js "Compiling...")] /\
  oras (world_of (taroInvalid (fst (run_ops ops initial))))
  = [mkOra (js "Compiling...")].
Proof.
  assert (J : one_spinner (fst (run_ops ops initial)))
    by (apply run_ops_one_spinner; reflexivity).
  split; [apply run_ops_known_label; constructor|]. split.
  - destruct isWatch; cbn [runner]; [rewrite buildDev_run|rewrite buildProd_run];
      apply relabelled_oras, J.
  - rewrite taroInvalid_run. apply relabelled_oras, J.
Qed.

(** ** The settings of the dev server *)

(** X12. How [buildDev] combines [config.devServer] with the build
    configuration.  [https] goes by presence: a value given under the key,
    falsy or not, is the one used, and the build configuration's is used
    exactly when the key, or [devServer] itself, is absent.  [host] and
    [port] go by truthiness: a truthy value given for them is the one
    used, and the build configuration's is used when [devServer] or the
    key is absent or the value given is falsy (an empty host, port 0).  The
    protocol handed to [prepareUrls] is 'https' when the chosen [https] is
    truthy and 'http' otherwise. *)
Theorem listen_settings_overrides (devServer : option DevServerOptions) (conf : BuildConf) :
  (forall custom v, devServer = Some custom -> ds_https custom = Some v ->
     ls_https (listenSettings devServer conf) = v) /\
  (devServer = None \/ (exists custom, devServer = Some custom /\ ds_https custom = None) ->
     ls_https (listenSettings devServer conf) = conf_https conf) /\
  (setting_truthy (conf_host conf) = true ->
     setting_truthy (ls_host (listenSettings devServer conf)) = true) /\
  (setting_truthy (conf_port conf) = true ->
     setting_truthy (ls_port (listenSettings devServer conf)) = true) /\
  (forall custom v, devServer = Some custom -> ds_host custom = Some v ->
     setting_truthy v = true -> ls_host (listenSettings devServer conf) = v) /\
  (forall custom v, devServer = Some custom -> ds_port custom = Some v ->
     setting_truthy v = true -> ls_port (listenSettings devServer conf) = v) /\
  (ls_protocol (listenSettings devServer conf) = js "https"
   <-> setting_truthy (ls_https (listenSettings devServer conf)) = true) /\
  (devServer = None
   \/ (exists custom, devServer = Some custom /\ ds_host custom = None)
   \/ (exists custom v, devServer = Some custom /\ ds_host custom = Some v
                        /\ setting_truthy v = false) ->
     ls_host (listenSettings devServer conf) = conf_host conf) /\
  (devServer = None
   \/ (exists custom, devServer = Some custom /\ ds_port custom = None)
   \/ (exists custom v, devServer = Some custom /\ ds_port custom = Some v
                        /\ setting_truthy v = false) ->
     ls_port (listenSettings devServer conf) = conf_port conf) /\
  ls_protocol (listenSettings devServer conf)
  = (if setting_truthy (ls_https (listenSettings devServer conf))
     then js "https" else js "http").
Proof.
  unfold listenSettings, setting_or, read_key.
  split; [intros custom v -> H; cbn; rewrite H; reflexivity|].
  split; [intros [-> | (custom & -> & H)]; cbn; [|rewrite H]; reflexivity|].
  split; [intros H; cbn; destruct (setting_truthy (default _ _)) eqn:E; [exact E|exact H]|].
  split; [intros H; cbn; destruct (setting_truthy (default _ _)) eqn:E; [exact E|exact H]|].
  split; [intros custom v -> H T; cbn; rewrite H; cbn; rewrite T; reflexivity|].
  split; [intros custom v -> H T; cbn; rewrite H; cbn; rewrite T; reflexivity|].
  split; [cbn; destruct (setting_truthy _); split; intros H; try reflexivity; discriminate H|].
  split; [intros [-> | [(custom & -> & H) | (custom & v & -> & H & T)]]; cbn;
          [|rewrite H|rewrite H; cbn; rewrite T]; reflexivity|].
  split; [intros [-> | [(custom & -> & H) | (custom & v & -> & H & T)]]; cbn;
          [|rewrite H|rewrite H; cbn; rewrite T]; reflexivity|].
  reflexivity.
Qed.

(** ** The shape of what [printBuildError] prints *)

Lemma printBuildErrorAny_plain (v : Val) (w : World) :
  printBuildErrorAny (Plain v) w = printBuildError v w.
Proof.
  unfold printBuildErrorAny, printBuildError.
  destruct v as [| | b | s | [n m st]];
    cbn [not_nullish_any not_nullish get_message_any get_stack_any get_message get_stack];
    unfold bind; cbn [ret]; try reflexivity.
  destruct (truthy (of_prop (err_stack _)) && has_marker (of_prop (err_message _))).
  - unfold try_catch. destruct (exec minifyRe _); reflexivity.
  - unfold js_or_any, js_or. destruct (truthy (of_prop (err_message _))); reflexivity.
Qed.

(** X13. For [undefined], [null], a boolean, a string or an error
    object, [printBuildError] returns after exactly two [console.log]
    calls and no other output: the first with at least one argument, the
    second with none (the blank line that ends every report).  For a value
    without conversion to a string, a symbol or [Object.create(null)], it
    throws at line 45 before any output.  In no case does it touch the
    spinner or write to standard output. *)
Theorem printBuildError_output_shape (err : JsValue) (w : World) :
  match err with
  | Plain _ =>
      exists args,
        printBuildErrorAny err w = (Ret tt, w, [ConsoleLog args; ConsoleLog []]) /\
        args <> []
  | JSymbol _ | JBareObject =>
      exists exn, printBuildErrorAny err w = (Throw exn, w, [])
  end.
Proof.
  destruct err as [v | d |]; [|eexists; reflexivity|eexists; reflexivity].
  rewrite printBuildErrorAny_plain. unfold printBuildError.
  destruct v as [| | b | s | [n m st]];
    cbn [not_nullish get_message get_stack]; unfold bind at 1 2 3; cbn [ret];
    try (eexists; split; [reflexivity|discriminate]).
  destruct (truthy (of_prop (err_stack _)) && has_marker (of_prop (err_message _)));
    [|eexists; split; [reflexivity|discriminate]].
  unfold try_catch.
  destruct (exec minifyRe _); eexists; (split; [reflexivity|discriminate]).
Qed.

End Runner.

(* ------------------------------------------------------------------ *)
(** * The properties on sample inputs *)

(** An empty compile result, in one-shot mode. *)
Lemma success_pass_sample :
  events_of (pass sample_format sample_frames OneShot (sample_stats [] []) initial)
  = [line_success 0; StdoutWrite (js "Hash: 0123abcd" ++ [LF])].
Proof.
  exact (proj2 (proj2 (proj2
    (success_pass sample_format sample_frames OneShot (sample_stats [] []) initial
       eq_refl eq_refl)))).
Defined.

(** Two warnings and no error, in one-shot mode. *)
Lemma warnings_only_pass_sample :
  events_of (pass sample_format sample_frames OneShot
               (sample_stats [] [js "unused var y"; js "unused var z"]) initial)
  = [ line_warnings 0;
      log_plain (js "unused var y" ++ [LF; LF] ++ js "unused var z");
      guidance_keywords; guidance_ignore ].
Proof.
  exact (proj2 (proj2
    (warnings_only_pass sample_format sample_frames OneShot
       (sample_stats [] [js "unused var y"; js "unused var z"]) initial
       (js "unused var y") [js "unused var z"] eq_refl eq_refl))).
Defined.

(** C2, as the code has it. In one-shot mode, with two warnings and no
    error, the text printed under the yellow line is both warnings joined
    by a blank line, not the first one alone. *)
Lemma oneshot_prints_every_warning :
  events_of (runCallback sample_format sample_frames VNull
               (sample_stats [] [js "unused var y"; js "unused var z"]) initial)
  = [ line_warnings 0;
      log_plain (js "unused var y" ++ [LF; LF] ++ js "unused var z");
      guidance_keywords; guidance_ignore ]
  /\ events_of (runCallback sample_format sample_frames VNull
                  (sample_stats [] [js "unused var y"; js "unused var z"]) initial)
     <> [ line_warnings 0; log_plain (js "unused var y");
          guidance_keywords; guidance_ignore ].
Proof. split; [reflexivity|]. vm_compute. discriminate. Qed.

(** Two errors, in one-shot mode: the first one is printed. *)
Lemma one_error_entry_sample :
  events_of (pass sample_format sample_frames OneShot
               (sample_stats [js "Module not found: ./x"; js "Module not found: ./y"] [])
               initial)
  = [line_failed 0; log_plain (js "Module not found: ./x" ++ [LF]); ConsoleLog []].
Proof.
  exact (proj2 (proj2
    (one_error_entry sample_format sample_frames OneShot
       (sample_stats [js "Module not found: ./x"; js "Module not found: ./y"] [])
       initial (js "Module not found: ./x") [js "Module not found: ./y"] eq_refl))
    eq_refl eq_refl).
Defined.

(** One error and one warning, in watch mode. *)
Lemma watch_failure_also_renders_warnings_sample :
  outcomes_of (events_of (pass sample_format sample_frames Watch
                            (sample_stats [js "Module not found: ./x"] [js "unused var y"])
                            initial))
  = [Failure; WarningsOnly].
Proof.
  exact (proj2
    (watch_failure_also_renders_warnings sample_format sample_frames
       (sample_stats [js "Module not found: ./x"] [js "unused var y"]) initial
       (js "Module not found: ./x") (js "unused var y") [] [] eq_refl eq_refl)).
Defined.

Lemma sample_stack_unambiguous :
  Unambiguous (js "Error: static/js/main.js from UglifyJs" ++ [LF])
    (js "Unexpected token: name (y) ") (js "./src/app.js") (js "12") (js "4")
    (js "static/js/main.js:3,100") []
    ([LF] ++ js "    at handle [as run] (index.js:1:2)").
Proof. constructor; repeat split; reflexivity. Defined.

Lemma sample_message_marked :
  Contains (js "static/js/main.js from UglifyJs") marker.
Proof. exists (js "static/js/main.js "), []. reflexivity. Defined.

(** A minifier failure: path, line and column of the first bracketed
    group are printed. *)
Lemma minifier_error_location_sample :
  events_of (printBuildError sample_frames (VErr sample_minifier_error) initial)
  = located (js "./src/app.js") (js "12") (js "4").
Proof.
  refine (proj1 (proj2
    (minifier_error_location sample_frames sample_minifier_error
       (js "static/js/main.js from UglifyJs") sample_stack initial
       eq_refl sample_message_marked eq_refl _))
    (js "Error: static/js/main.js from UglifyJs" ++ [LF])
    (js "Unexpected token: name (y) ") (js "./src/app.js") (js "12") (js "4")
    (js "static/js/main.js:3,100") []
    ([LF] ++ js "    at handle [as run] (index.js:1:2)")
    eq_refl sample_stack_unambiguous).
  discriminate.
Defined.

(** A stack whose column is 0. *)
Lemma column_zero_is_dropped_sample :
  events_of (printBuildError sample_frames
               (VErr (mkError (js "Error") (Some (js "main.js from UglifyJs"))
                        (Some (js "Unexpected token [./src/app.js:7,0][main.js:1,9]"))))
               initial)
  = minify_report ([TAB] ++ js "./src/app.js" ++ [COLON] ++ js "7").
Proof.
  refine (proj1
    (column_zero_is_dropped sample_frames
       (mkError (js "Error") (Some (js "main.js from UglifyJs"))
          (Some (js "Unexpected token [./src/app.js:7,0][main.js:1,9]")))
       (js "main.js from UglifyJs")
       (js "Unexpected token [./src/app.js:7,0][main.js:1,9]") initial
       [ Some (js "Unexpected token [./src/app.js:7,0][main.js:1,9]");
         Some (js "Unexpected token "); Some (js "./src/app.js"); Some (js "7");
         Some (js "0") ]
       (js "./src/app.js") (js "7") (js "0")
       eq_refl _ eq_refl _ eq_refl eq_refl eq_refl) eq_refl).
  - exists (js "main.js "), []. reflexivity.
  - vm_compute. reflexivity.
Defined.

(** Three compile-complete events of a fresh process. *)
Lemma first_listen_banner_once_sample :
  banners (concat (watch_trace sample_format sample_urls
                     [ sample_stats [] []; sample_stats [js "Module not found: ./x"] [];
                       sample_stats [] [] ]
                     initial))
  = 1.
Proof.
  exact (proj1 (proj2 (proj2 (proj2
    (first_listen_banner_once sample_format sample_frames sample_urls
       (sample_stats [] [])
       [sample_stats [js "Module not found: ./x"] []; sample_stats [] []]
       initial eq_refl))))).
Defined.


(** An error and a warning, in one-shot mode: Failure alone. *)
Lemma oneshot_renders_one_outcome_sample :
  outcomes_of (events_of (runCallback sample_format sample_frames VNull
                            (sample_stats [js "Module not found: ./x"] [js "unused var y"])
                            initial))
  = [Failure].
Proof.
  exact (oneshot_renders_one_outcome sample_format sample_frames VNull
           (sample_stats [js "Module not found: ./x"] [js "unused var y"]) initial eq_refl).
Defined.

(** An error without the marker whose stack matches the pattern. *)
Lemma ordinary_error_prints_message_sample :
  events_of (printBuildError sample_frames
               (VErr (mkError (js "Error") (Some (js "Module not found: ./x"))
                        (Some (js "resolve [./src/app.js:7,2][main.js:1,9]"))))
               initial)
  = [log_plain (js "Module not found: ./x" ++ [LF]); ConsoleLog []].
Proof.
  refine (ordinary_error_prints_message sample_frames
            (mkError (js "Error") (Some (js "Module not found: ./x"))
               (Some (js "resolve [./src/app.js:7,2][main.js:1,9]")))
            (js "Module not found: ./x") initial eq_refl _ (or_introl _)).
  - discriminate.
  - intros H. apply has_marker_iff in H. vm_compute in H. discriminate H.
Defined.

(** The second of two warnings is part of what one-shot mode prints. *)
Lemma oneshot_shows_every_warning_sample :
  exists text,
    nth_error (events_of (runCallback sample_format sample_frames VNull
                            (sample_stats [] [js "unused var y"; js "unused var z"])
                            initial)) 1
    = Some (log_plain text) /\
    Contains text (js "unused var z").
Proof.
  refine (oneshot_shows_every_warning sample_format sample_frames VNull
            (sample_stats [] [js "unused var y"; js "unused var z"]) initial
            (js "unused var z") eq_refl eq_refl _).
  right. left. reflexivity.
Defined.

(** A compile error with the marker and no bracket, in one-shot mode. *)
Lemma oneshot_minifier_error_sample :
  events_of (runCallback sample_format sample_frames VNull
               (sample_stats [js "main.js from UglifyJs"] []) initial)
  = line_failed 0 :: unparsed (VErr (newError sample_frames 127 (js "main.js from UglifyJs"))).
Proof.
  refine (proj2
    (oneshot_minifier_error sample_format sample_frames VNull
       (sample_stats [js "main.js from UglifyJs"] []) initial
       (js "main.js from UglifyJs") [] eq_refl eq_refl _) _).
  - exists (js "main.js "), []. reflexivity.
  - intros M. apply (exec_complete _ M). vm_compute. reflexivity.
Defined.

(** Two bracketed pairs on one line: the later one is reported. *)
Lemma later_bracketed_pair_is_reported_sample :
  events_of (printBuildError sample_frames
               (VErr (mkError (js "Error") (Some (js "main.js from UglifyJs"))
                        (Some (js "see [./src/a.js:1,2][x] then [./src/b.js:3,4][y]"))))
               initial)
  = located (js "./src/b.js") (js "3") (js "4").
Proof.
  refine (proj2
    (later_bracketed_pair_is_reported sample_frames
       (mkError (js "Error") (Some (js "main.js from UglifyJs"))
          (Some (js "see [./src/a.js:1,2][x] then [./src/b.js:3,4][y]")))
       (js "main.js from UglifyJs") initial
       (js "see ") (js "./src/a.js") (js "1") (js "2") (js "x")
       (js " then ") (js "./src/b.js") (js "3") (js "4") (js "y") [] []
       eq_refl _ eq_refl eq_refl eq_refl eq_refl eq_refl eq_refl eq_refl _)).
  - exists (js "main.js "), []. reflexivity.
  - constructor; repeat split; reflexivity.
Defined.


(** The same on [Object.create(null)]. *)
Lemma printBuildError_throws_on_bare_object :
  printBuildErrorAny sample_frames JBareObject initial
  = (Throw (typeError "Cannot convert object to primitive value"), initial, []).
Proof. reflexivity. Qed.
